(** * Stellar CLI tool: transaction builder

    A shallow embedding of [src/build-transaction.ts] (the variant with an
    explicit memo menu and payment / create-account switching) and of the
    earlier variant that infers the memo type from the shape of the input,
    together with the part of the JavaScript language the two files rely on
    (strings as UTF-16 code units, IEEE 754 binary64 numbers, [parseFloat],
    [parseInt], [BigInt], [Number.prototype.toFixed] and
    [Number.prototype.toString]).  The entry points of the variants, the
    broadcast of a signed envelope and the testnet-only variant with the
    memo menu are embedded as well. *)

From Stdlib Require Import ZArith List String Ascii Bool Lia Znumtheory.
Import ListNotations.
Open Scope Z_scope.

(** ** JavaScript strings *)

Module JsString.

(** A JavaScript string is a sequence of UTF-16 code units. *)
Definition code_unit := N.
Definition jsstring := list code_unit.

Definition lit (s : string) : jsstring :=
  map N_of_ascii (list_ascii_of_string s).

Fixpoint jsstring_eqb (a b : jsstring) : bool :=
  match a, b with
  | [], [] => true
  | x :: a', y :: b' => N.eqb x y && jsstring_eqb a' b'
  | _, _ => false
  end.

(** [WhiteSpace] and [LineTerminator] code points of ECMAScript: what
    [String.prototype.trim] strips and what the numeric conversions skip. *)
Definition is_whitespace (c : code_unit) : bool :=
  ((9 <=? c) && (c <=? 13) || (c =? 32) || (c =? 160) || (c =? 5760)
   || ((8192 <=? c) && (c <=? 8202)) || (c =? 8232) || (c =? 8233)
   || (c =? 8239) || (c =? 8287) || (c =? 12288) || (c =? 65279))%N.

Fixpoint trimStart (s : jsstring) : jsstring :=
  match s with
  | c :: r => if is_whitespace c then trimStart r else s
  | [] => []
  end.

Definition trimEnd (s : jsstring) : jsstring := rev (trimStart (rev s)).

Definition trim (s : jsstring) : jsstring := trimEnd (trimStart s).

Definition is_digit (c : code_unit) : bool := ((48 <=? c) && (c <=? 57))%N.

Definition is_hex_digit (c : code_unit) : bool :=
  (is_digit c || ((97 <=? c) && (c <=? 102)) || ((65 <=? c) && (c <=? 70)))%N.

Definition digit_value (c : code_unit) : Z := Z.of_N c - 48.

Definition hex_digit_value (c : code_unit) : Z :=
  if is_digit c then Z.of_N c - 48
  else if (97 <=? c)%N then Z.of_N c - 87 else Z.of_N c - 55.

Definition digit_char (d : Z) : code_unit := Z.to_N (d + 48).

(** Longest prefix whose code units satisfy [p], and the rest. *)
Fixpoint span (p : code_unit -> bool) (s : jsstring) : jsstring * jsstring :=
  match s with
  | c :: r => if p c then let '(a, b) := span p r in (c :: a, b) else ([], s)
  | [] => ([], [])
  end.

Fixpoint starts_with (prefix s : jsstring) : bool :=
  match prefix, s with
  | [], _ => true
  | p :: prefix', c :: s' => N.eqb p c && starts_with prefix' s'
  | _ :: _, [] => false
  end.

(** Value of a digit string in the given radix, most significant first. *)
Definition radix_value (radix : Z) (val : code_unit -> Z) (ds : jsstring) : Z :=
  fold_left (fun acc c => radix * acc + val c) ds 0.

Definition decimal_value (ds : jsstring) : Z := radix_value 10 digit_value ds.

Fixpoint to_digits (fuel : nat) (n : Z) (acc : jsstring) : jsstring :=
  match fuel with
  | O => acc
  | S fuel' =>
      let acc' := digit_char (n mod 10) :: acc in
      if n <? 10 then acc' else to_digits fuel' (n / 10) acc'
  end.

(** The decimal digits of a non-negative integer, without leading zeros
    (["0"] for zero). *)
Definition decimal_digits (n : Z) : jsstring :=
  to_digits (S (Z.to_nat (Z.log2 n))) n [].

Definition zeros (n : nat) : jsstring := repeat 48%N n.

(** [Buffer.byteLength(str, 'utf8')]: the length of the UTF-8 encoding of
    the string.  A surrogate pair encodes one code point in four bytes; a
    lone surrogate is replaced by U+FFFD, three bytes. *)
Definition is_high_surrogate (c : code_unit) : bool :=
  ((55296 <=? c) && (c <=? 56319))%N.
Definition is_low_surrogate (c : code_unit) : bool :=
  ((56320 <=? c) && (c <=? 57343))%N.

Fixpoint utf8_length (s : jsstring) : Z :=
  match s with
  | [] => 0
  | c :: r =>
      if (c <? 128)%N then 1 + utf8_length r
      else if (c <? 2048)%N then 2 + utf8_length r
      else if is_high_surrogate c then
             match r with
             | d :: r' => if is_low_surrogate d then 4 + utf8_length r'
                          else 3 + utf8_length r
             | [] => 3
             end
      else 3 + utf8_length r
  end.

End JsString.
Export JsString.

(** ** JavaScript numbers *)

Module JsNumber.

(** A Number is an IEEE 754 binary64 value.  Every finite binary64 value is
    an integer multiple of [2^-1074], so a finite value is kept as its sign
    and its magnitude counted in units of [2^-1074]; a magnitude is a
    binary64 magnitude when it has at most 53 significant bits and is
    below [2^2098] (that is, the value is below [2^1024]). *)
Inductive Number : Type :=
| NaN
| Infinity (negative : bool)
| Finite (negative : bool) (units : Z).

Definition unit_exp : Z := 1074.
Definition one_units : Z := 2 ^ unit_exp.
Definition overflow_threshold : Z := 2 ^ 2098.

Definition round_half_even (a b : Z) : Z :=
  let q := a / b in
  match 2 * (a mod b) ?= b with
  | Lt => q
  | Gt => q + 1
  | Eq => if Z.even q then q else q + 1
  end.

(** Spacing of the binary64 magnitudes around a magnitude whose integer
    part is [f]: one unit up to 53 bits, then a power of two that keeps 53
    significant bits. *)
Definition quantum (f : Z) : Z := 2 ^ Z.max 0 (Z.log2 f - 52).

(** The binary64 magnitude nearest to [p / q] units, ties to even. *)
Definition round_units (p q : Z) : Z :=
  let t := quantum (p / q) in
  round_half_even p (q * t) * t.

(** The Number value for the non-negative real [num / den], with a sign. *)
Definition to_binary64 (negative : bool) (num den : Z) : Number :=
  let k := round_units (num * one_units) den in
  if overflow_threshold <=? k then Infinity negative else Finite negative k.

Definition isNaN (x : Number) : bool :=
  match x with NaN => true | _ => false end.

Definition signed_units (negative : bool) (k : Z) : Z :=
  if negative then - k else k.

(** [x < y] and [x <= y] of the language (false whenever an operand is
    NaN). *)
Definition num_lt (x y : Number) : bool :=
  match x, y with
  | NaN, _ | _, NaN => false
  | Infinity true, Infinity true => false
  | Infinity true, _ => true
  | _, Infinity true => false
  | Infinity false, _ => false
  | _, Infinity false => true
  | Finite s k, Finite s' k' => signed_units s k <? signed_units s' k'
  end.

Definition num_le (x y : Number) : bool :=
  match x, y with
  | NaN, _ | _, NaN => false
  | Infinity true, _ => true
  | _, Infinity false => true
  | Infinity false, _ => false
  | _, Infinity true => false
  | Finite s k, Finite s' k' => signed_units s k <=? signed_units s' k'
  end.

Definition num_zero : Number := Finite false 0.

(** Number addition. *)
Definition num_add (x y : Number) : Number :=
  match x, y with
  | NaN, _ | _, NaN => NaN
  | Infinity s, Infinity s' => if Bool.eqb s s' then Infinity s else NaN
  | Infinity s, _ | _, Infinity s => Infinity s
  | Finite s k, Finite s' k' =>
      let sum := signed_units s k + signed_units s' k' in
      if sum =? 0 then Finite (s && s') 0
      else
        let r := round_units (Z.abs sum) 1 in
        if overflow_threshold <=? r then Infinity (sum <? 0)
        else Finite (sum <? 0) r
  end.

(** The Number for a mathematical integer. *)
Definition of_Z (n : Z) : Number := to_binary64 (n <? 0) (Z.abs n) 1.

(** *** parseFloat *)

(** [ExponentPart] of a [StrDecimalLiteral], when one is there in full. *)
Definition exponent_part (s : jsstring) : Z :=
  match s with
  | c :: r =>
      if ((c =? 101) || (c =? 69))%N then
        let '(negative, r') :=
          match r with
          | d :: r'' => if (d =? 45)%N then (true, r'')
                        else if (d =? 43)%N then (false, r'') else (false, r)
          | [] => (false, r)
          end in
        let '(ds, _) := span is_digit r' in
        match ds with
        | [] => 0
        | _ => if negative then - decimal_value ds else decimal_value ds
        end
      else 0
  | [] => 0
  end.

Definition strip_sign (s : jsstring) : bool * jsstring :=
  match s with
  | c :: r => if (c =? 45)%N then (true, r)
              else if (c =? 43)%N then (false, r) else (false, s)
  | [] => (false, s)
  end.

(** [parseFloat(string)]: leading white space is skipped, the longest
    prefix that is a [StrDecimalLiteral] is converted, and NaN is returned
    when there is none. *)
Definition parseFloat (input : jsstring) : Number :=
  let '(negative, s) := strip_sign (trimStart input) in
  if starts_with (lit "Infinity") s then Infinity negative
  else
    let '(ip, r1) := span is_digit s in
    let '(fp, r2) :=
      match r1 with
      | c :: r => if (c =? 46)%N then span is_digit r else ([], r1)
      | [] => ([], r1)
      end in
    match ip ++ fp with
    | [] => NaN
    | ds =>
        let e := exponent_part r2 - Z.of_nat (List.length fp) in
        if 0 <=? e then to_binary64 negative (decimal_value ds * 10 ^ e) 1
        else to_binary64 negative (decimal_value ds) (10 ^ (- e))
    end.

(** *** parseInt *)

(** [parseInt(string)] with no radix: optional sign, then hexadecimal
    after a [0x] or [0X] prefix and decimal otherwise; the longest prefix of
    digits is converted, NaN when there is none. *)
Definition parseInt (input : jsstring) : Number :=
  let '(negative, s) := strip_sign (trimStart input) in
  if starts_with (lit "0x") s || starts_with (lit "0X") s then
    let '(ds, _) := span is_hex_digit (skipn 2 s) in
    match ds with
    | [] => NaN
    | _ => to_binary64 negative (radix_value 16 hex_digit_value ds) 1
    end
  else
    let '(ds, _) := span is_digit s in
    match ds with
    | [] => NaN
    | _ => to_binary64 negative (decimal_value ds) 1
    end.

(** *** Number.prototype.toString *)

(** The binary64 magnitude nearest to [s * 10^x], in units. *)
Definition decimal_units (s x : Z) : Z :=
  if 0 <=? x then round_units (s * 10 ^ x * one_units) 1
  else round_units (s * one_units) (10 ^ (- x)).

(** A magnitude of [k] units is exactly [k * 5^1074 / 10^1074]. *)
Definition five_pow : Z := 5 ^ unit_exp.

(** Does [s * 10^e / 10^1074] convert to the magnitude [k]? *)
Definition reads_back (k s : Z) (e : nat) : bool :=
  decimal_units s (Z.of_nat e - unit_exp) =? k.

(** Shortest digits: with [w] the exact decimal expansion of the magnitude
    (scaled by [10^1074]) and [ws] its digits, the candidates that drop the
    [e] low digits are tried from the fewest significant digits up; among
    the integers [s] with that many digits for which [s * 10^e] reads back
    as [k], the one nearest to [w] is kept.  With no digit dropped [w]
    itself reads back. *)
Fixpoint shortest (e : nat) (k w : Z) (ws : jsstring) : Z * nat :=
  match e with
  | O => (w, O)
  | S e' =>
      let lo := decimal_value (firstn (List.length ws - e) ws) in
      let hi := lo + 1 in
      match reads_back k lo e, reads_back k hi e with
      | true, true =>
          let p := 10 ^ Z.of_nat e in
          match 2 * (w - lo * p) ?= p with
          | Lt => (lo, e)
          | Gt => (hi, e)
          | Eq => if Z.even lo then (lo, e) else (hi, e)
          end
      | true, false => (lo, e)
      | false, true => (hi, e)
      | false, false => shortest e' k w ws
      end
  end.

(** The digits [s] and the decimal exponent [n] of [Number::toString]:
    the magnitude reads as [0.s * 10^n]. *)
Definition shortest_digits (k : Z) : jsstring * Z :=
  let w := k * five_pow in
  let ws := decimal_digits w in
  let '(s, e) := shortest (Nat.pred (List.length ws)) k w ws in
  let '(s, e) := if s mod 10 =? 0 then (s / 10, S e) else (s, e) in
  let ds := decimal_digits s in
  (ds, Z.of_nat e - unit_exp + Z.of_nat (List.length ds)).

Definition sign_prefix (negative : bool) : jsstring :=
  if negative then lit "-" else [].

Definition exponent_suffix (n : Z) : jsstring :=
  lit "e" ++ (if 0 <=? n - 1 then lit "+" else lit "-")
          ++ decimal_digits (Z.abs (n - 1)).

Definition toString (x : Number) : jsstring :=
  match x with
  | NaN => lit "NaN"
  | Infinity negative => sign_prefix negative ++ lit "Infinity"
  | Finite negative k =>
      if k =? 0 then lit "0"
      else
        let '(ds, n) := shortest_digits k in
        let len := Z.of_nat (List.length ds) in
        sign_prefix negative ++
        (if (len <=? n) && (n <=? 21) then
           ds ++ zeros (Z.to_nat (n - len))
         else if (0 <? n) && (n <=? 21) then
           firstn (Z.to_nat n) ds ++ lit "." ++ skipn (Z.to_nat n) ds
         else if (-6 <? n) && (n <=? 0) then
           lit "0." ++ zeros (Z.to_nat (- n)) ++ ds
         else
           match ds with
           | [d] => [d] ++ exponent_suffix n
           | d :: rest => [d] ++ lit "." ++ rest ++ exponent_suffix n
           | [] => []
           end)
  end.

(** *** Number.prototype.toFixed *)

(** The digits of [n] with a point before the last [f] of them, padded
    with zeros on the left to [f + 1] digits. *)
Definition fixed_point (n : Z) (f : nat) : jsstring :=
  let m := decimal_digits n in
  match f with
  | O => m
  | S _ =>
      let m := if (List.length m <=? f)%nat
               then zeros (f + 1 - List.length m) ++ m else m in
      let cut := (List.length m - f)%nat in
      firstn cut m ++ lit "." ++ skipn cut m
  end.

(** [x.toFixed(f)]: the decimal digits of the integer [n] nearest to
    [x * 10^f] (the larger one on a tie), with a point before the last [f]
    digits; values of magnitude [10^21] and more, and the non-finite ones,
    are printed by [toString]. *)
Definition toFixed (x : Number) (f : nat) : jsstring :=
  match x with
  | NaN | Infinity _ => toString x
  | Finite negative k =>
      let s := sign_prefix (negative && (0 <? k)) in
      if 10 ^ 21 * one_units <=? k then s ++ toString (Finite false k)
      else
        let n := (2 * k * 10 ^ Z.of_nat f + one_units) / (2 * one_units) in
        s ++ fixed_point n f
  end.

(** *** BigInt *)

Definition is_binary_digit (c : code_unit) : bool := ((c =? 48) || (c =? 49))%N.
Definition is_octal_digit (c : code_unit) : bool := ((48 <=? c) && (c <=? 55))%N.

Definition all_digits (p : code_unit -> bool) (s : jsstring) : bool :=
  match s with [] => false | _ => forallb p s end.

(** [BigInt(string)], that is [StringToBigInt]: white space around the
    literal is dropped; the empty string is [0n]; a literal is decimal
    digits with an optional sign, or unsigned digits after [0x], [0o] or
    [0b]; anything else is a [SyntaxError], here [None]. *)
Definition StringToBigInt (input : jsstring) : option Z :=
  let s := trim input in
  match s with
  | [] => Some 0
  | _ =>
      let prefixed (lo up : string) (p : code_unit -> bool)
                   (radix : Z) (val : code_unit -> Z) : option (option Z) :=
        if starts_with (lit lo) s || starts_with (lit up) s then
          Some (if all_digits p (skipn 2 s)
                then Some (radix_value radix val (skipn 2 s)) else None)
        else None in
      match prefixed "0x"%string "0X"%string is_hex_digit 16 hex_digit_value with
      | Some r => r
      | None =>
      match prefixed "0o"%string "0O"%string is_octal_digit 8 digit_value with
      | Some r => r
      | None =>
      match prefixed "0b"%string "0B"%string is_binary_digit 2 digit_value with
      | Some r => r
      | None =>
          let '(negative, ds) := strip_sign s in
          if all_digits is_digit ds
          then Some (if negative then - decimal_value ds else decimal_value ds)
          else None
      end end end
  end.

End JsNumber.
Export JsNumber.

(** ** Effects: exceptions, the terminal and the Horizon server *)

Module Runtime.

(** An exception value.  [response_status] is [error.response?.status]:
    present on the errors of the HTTP client that carry a response. *)
Record JsError : Type := mkError {
  message : jsstring;
  response_status : option Z
}.

(** [new Error(msg)]. *)
Definition Error (msg : jsstring) : JsError :=
  {| message := msg; response_status := None |}.

(** Result of code that returns or throws. *)
Inductive Completion (A : Type) : Type :=
| Normal (a : A)
| Throw (e : JsError).
Arguments Normal {A} a.
Arguments Throw {A} e.

Definition try_catch {A} (body : Completion A) (handler : JsError -> Completion A)
  : Completion A :=
  match body with
  | Normal a => Normal a
  | Throw e => handler e
  end.

(** The account resource of Horizon: the sequence number is a decimal
    string. *)
Record Account : Type := mkAccount {
  account_id : jsstring;
  sequence : jsstring
}.

(** The network as the tool sees it: the accounts present on the ledger,
    and, for each request in order, whether it fails before an answer on
    the account is obtained (connection error, server error, ...). *)
Record Horizon : Type := mkHorizon {
  ledger : jsstring -> option Account;
  outage : nat -> option JsError
}.

Definition not_found : JsError :=
  {| message := lit "Not Found"; response_status := Some 404 |}.

(** Answer of the [n]-th request when it loads [address]. *)
Definition horizon_response (server : Horizon) (n : nat) (address : jsstring)
  : Completion Account :=
  match outage server n with
  | Some e => Throw e
  | None =>
      match ledger server address with
      | Some a => Normal a
      | None => Throw not_found
      end
  end.

(** The process state an [async] function runs in: the lines still to be
    read on standard input, what was written to the terminal, and the
    number of requests sent to Horizon so far. *)
Record World : Type := mkWorld {
  stdin : list jsstring;
  stdout : list jsstring;
  requests : nat
}.

(** An awaited computation returns, throws, or never resumes because the
    question it asked is never answered. *)
Inductive Outcome (A : Type) : Type :=
| Return (a : A) (w : World)
| Raise (e : JsError) (w : World)
| Waiting (w : World).
Arguments Return {A} a w.
Arguments Raise {A} e w.
Arguments Waiting {A} w.

Definition M (A : Type) : Type := World -> Outcome A.

Definition ret {A} (a : A) : M A := fun w => Return a w.

Definition throw {A} (e : JsError) : M A := fun w => Raise e w.

Definition bind {A B} (c : M A) (k : A -> M B) : M B :=
  fun w =>
    match c w with
    | Return a w' => k a w'
    | Raise e w' => Raise e w'
    | Waiting w' => Waiting w'
    end.

Definition lift {A} (c : Completion A) : M A :=
  match c with
  | Normal a => ret a
  | Throw e => throw e
  end.

Definition catch {A} (body : M A) (handler : JsError -> M A) : M A :=
  fun w =>
    match body w with
    | Raise e w' => handler e w'
    | r => r
    end.

Declare Scope js_scope.
Delimit Scope js_scope with js.
Notation "x <- c ;; k" := (bind c (fun x => k))
  (at level 61, c at next level, right associativity) : js_scope.
Notation "c ;;; k" := (bind c (fun _ => k))
  (at level 61, right associativity) : js_scope.

Definition print (line : jsstring) (w : World) : World :=
  {| stdin := stdin w; stdout := stdout w ++ [line]; requests := requests w |}.

Definition console_log (line : jsstring) : M unit :=
  fun w => Return tt (print line w).

(** [askQuestion]: the question is written, and the next line comes back
    trimmed. *)
Definition askQuestion (question : jsstring) : M jsstring :=
  fun w =>
    match stdin w with
    | [] => Waiting (print question w)
    | answer :: rest =>
        Return (trim answer)
               {| stdin := rest; stdout := stdout w ++ [question];
                  requests := requests w |}
    end.

(** A [do ... while] loop whose body asks one question and then works on
    the answer without further input: [Some a] leaves the loop with [a],
    [None] goes round again; the messages are logged either way. *)
Fixpoint prompt_loop {A} (question : jsstring)
    (body : jsstring -> Completion (list jsstring * option A))
    (lines out : list jsstring) (n : nat) : Outcome A :=
  match lines with
  | [] => Waiting {| stdin := []; stdout := out ++ [question]; requests := n |}
  | answer :: rest =>
      match body (trim answer) with
      | Throw e =>
          Raise e {| stdin := rest; stdout := out ++ [question]; requests := n |}
      | Normal (logs, Some a) =>
          Return a {| stdin := rest; stdout := out ++ question :: logs;
                      requests := n |}
      | Normal (logs, None) =>
          prompt_loop question body rest (out ++ question :: logs) n
      end
  end.

Definition ask_until {A} (question : jsstring)
    (body : jsstring -> Completion (list jsstring * option A)) : M A :=
  fun w => prompt_loop question body (stdin w) (stdout w) (requests w).

(** [server.loadAccount(address)]. *)
Definition loadAccount (server : Horizon) (address : jsstring) : M Account :=
  fun w =>
    let w' := {| stdin := stdin w; stdout := stdout w;
                 requests := S (requests w) |} in
    match horizon_response server (requests w) address with
    | Normal a => Return a w'
    | Throw e => Raise e w'
    end.

End Runtime.
Export Runtime.

(** ** The Stellar SDK, as far as the tool uses it *)

Module Sdk.

Record Keypair : Type := mkKeypair { rawPublicKey : list N }.

Inductive Asset : Type := native.

Inductive Operation : Type :=
| createAccount (destination startingBalance : jsstring)
| payment (destination : jsstring) (asset : Asset) (amount : jsstring).

(** The memo objects made by [Memo.text], [Memo.id], [Memo.hash] and
    [Memo.return], each holding the string it was made from. *)
Inductive Memo : Type :=
| Memo_text (value : jsstring)
| Memo_id (value : jsstring)
| Memo_hash (value : jsstring)
| Memo_return (value : jsstring).

(** What [memo.value] holds, and [memo._value] with it: the string of a
    text or id memo, the buffer (given by its hexadecimal text) of a hash
    or return memo.  The detail [memo.value || memo._value] is that
    value. *)
Inductive MemoValue : Type :=
| StringValue (s : jsstring)
| BufferValue (hex : jsstring).

Definition memo_value (m : Memo) : MemoValue :=
  match m with
  | Memo_text v | Memo_id v => StringValue v
  | Memo_hash v | Memo_return v => BufferValue v
  end.

(** [TransactionBuilder]: the source account and options it is created
    with, and what [addOperation], [setTimeout] and [addMemo] add. *)
Record TransactionBuilder : Type := mkBuilder {
  tx_source : Account;
  tx_fee : jsstring;
  tx_networkPassphrase : jsstring;
  tx_operations : list Operation;
  tx_timeout : option Z;
  tx_memo : option Memo
}.

Definition newTransactionBuilder (source : Account) (fee passphrase : jsstring)
  : TransactionBuilder :=
  {| tx_source := source; tx_fee := fee; tx_networkPassphrase := passphrase;
     tx_operations := []; tx_timeout := None; tx_memo := None |}.

Definition addOperation (op : Operation) (b : TransactionBuilder)
  : TransactionBuilder :=
  {| tx_source := tx_source b; tx_fee := tx_fee b;
     tx_networkPassphrase := tx_networkPassphrase b;
     tx_operations := tx_operations b ++ [op];
     tx_timeout := tx_timeout b; tx_memo := tx_memo b |}.

Definition setTimeout (seconds : Z) (b : TransactionBuilder)
  : TransactionBuilder :=
  {| tx_source := tx_source b; tx_fee := tx_fee b;
     tx_networkPassphrase := tx_networkPassphrase b;
     tx_operations := tx_operations b;
     tx_timeout := Some seconds; tx_memo := tx_memo b |}.

Definition addMemo (m : Memo) (b : TransactionBuilder) : TransactionBuilder :=
  {| tx_source := tx_source b; tx_fee := tx_fee b;
     tx_networkPassphrase := tx_networkPassphrase b;
     tx_operations := tx_operations b;
     tx_timeout := tx_timeout b; tx_memo := Some m |}.

Definition Transaction : Type := TransactionBuilder.

Definition build (b : TransactionBuilder) : Transaction := b.

(** The two library functions whose result depends on the key encoding
    and on the XDR wire format. *)
Record Library : Type := mkLibrary {
  (** [Keypair.fromPublicKey]: decodes an account identifier or throws. *)
  fromPublicKey : jsstring -> Completion Keypair;
  (** [transaction.toEnvelope().toXDR('base64')]. *)
  toEnvelopeXDR : Transaction -> jsstring
}.

End Sdk.
Export Sdk.

(** ** Declarations shared by the variants of the tool *)

Module Common.

Record NetworkConfig : Type := mkConfig {
  horizon : jsstring;
  passphrase : jsstring
}.

Definition TESTNET_CONFIG : NetworkConfig :=
  {| horizon := lit "https://horizon-testnet.stellar.org";
     passphrase := lit "Test SDF Network ; September 2015" |}.

Definition MAINNET_CONFIG : NetworkConfig :=
  {| horizon := lit "https://horizon.stellar.org";
     passphrase := lit "Public Global Stellar Network ; September 2015" |}.

Definition SOURCE_PUBLIC_KEY : jsstring :=
  lit "GDBKSMQZAJ3DBIM55BAWY7I4QSRUHZ3IOJV2YJAVQHWUXMGIDVS5MGNM".

Definition MIN_ACCOUNT_BALANCE : jsstring := lit "1.0000000".

Definition TESTNET_NETWORK_HASH : list Z :=
  [0xce; 0xe0; 0x30; 0x2d; 0x7f; 0xc5; 0x27; 0x3c;
   0x88; 0x6d; 0xb1; 0x49; 0xa5; 0x3b; 0x0f; 0x44;
   0x02; 0xec; 0x4c; 0x25; 0xb6; 0x1a; 0x0c; 0x8b;
   0x24; 0x8e; 0x63; 0x72; 0x4f; 0x2f; 0x66; 0xfb].

Definition MAINNET_NETWORK_HASH : list Z :=
  [0x7a; 0xc3; 0x39; 0x97; 0x54; 0x4e; 0x31; 0x75;
   0xd2; 0x66; 0xbd; 0x02; 0x24; 0x39; 0xb2; 0x2c;
   0xdb; 0x16; 0x50; 0x8c; 0x01; 0x16; 0x3f; 0x26;
   0xe5; 0xcb; 0x2a; 0x3e; 0x10; 0x45; 0xa9; 0x79].

Record Details : Type := mkDetails {
  source : jsstring;
  destination : jsstring;
  amount : jsstring;
  memo : option MemoValue;
  fee : jsstring;
  details_sequence : jsstring
}.

Record TransactionData : Type := mkTransactionData {
  xdr : jsstring;
  networkHash : list Z;
  transaction : Transaction;
  details : Details
}.

(** [error.response?.status === 404]. *)
Definition status_is_404 (e : JsError) : bool :=
  match response_status e with
  | Some c => c =? 404
  | None => false
  end.

Section WithLibrary.

Variable sdk : Library.

Definition isValidStellarAddress (address : jsstring) : Completion bool :=
  try_catch
    (match fromPublicKey sdk address with
     | Normal _ => Normal true
     | Throw e => Throw e
     end)
    (fun _ => Normal false).

(** Body of the destination loop: the address is checked for the message
    and again for the loop condition. *)
Definition destination_body (destination : jsstring)
  : Completion (list jsstring * option jsstring) :=
  match isValidStellarAddress destination with
  | Throw e => Throw e
  | Normal valid =>
      let logs := if negb valid then [lit "Invalid address"] else [] in
      match isValidStellarAddress destination with
      | Throw e => Throw e
      | Normal again =>
          Normal (logs, if negb again then None else Some destination)
      end
  end.

End WithLibrary.

Definition formatAmount (amount : jsstring) : jsstring :=
  let num := parseFloat amount in
  toFixed num 7.

(** The matches of [/^[0-9a-fA-F]+$/] and of [/^\d+$/]. *)
Definition matches_hex (str : jsstring) : bool := all_digits is_hex_digit str.
Definition matches_digits (str : jsstring) : bool := all_digits is_digit str.

Definition isValidHex (str : jsstring) (expectedLength : Z) : bool :=
  matches_hex str && (Z.of_nat (List.length str) =? expectedLength).

Definition getByteLength (str : jsstring) : Z := utf8_length str.

(** [(parseInt(sourceAccount.sequence) + 1).toString()]. *)
Definition next_sequence (sourceAccount : Account) : jsstring :=
  toString (num_add (parseInt (sequence sourceAccount)) (of_Z 1)).

End Common.
Export Common.

(** ** [src/build-transaction.ts]: memo menu, payment or create-account *)

Module Switching.

Local Open Scope js_scope.

Inductive OperationType : Type := op_payment | op_createAccount.

Definition checkAccountActivation (server : Horizon) : M unit :=
  catch (loadAccount server SOURCE_PUBLIC_KEY ;;; ret tt)
        (fun error =>
           if status_is_404 error then
             throw (Error (lit "Source account " ++ SOURCE_PUBLIC_KEY
                           ++ lit " not found on network. Fund it first!"))
           else
             throw (Error (lit "Failed to check account: " ++ message error))).

Definition checkDestinationAccountExists (server : Horizon)
    (destination : jsstring) : M bool :=
  catch (loadAccount server destination ;;; ret true)
        (fun error =>
           if status_is_404 error then ret false
           else ret true).

Definition memo_types : list jsstring :=
  [lit "1"; lit "2"; lit "3"; lit "4"; lit "5"].

Definition includes (l : list jsstring) (s : jsstring) : bool :=
  existsb (jsstring_eqb s) l.

Definition UINT64_MAX : Z := 18446744073709551615.

(** The [switch] of [getMemoInput] on the chosen type and the value. *)
Definition memo_of_choice (memoType memoValue : jsstring)
  : Completion (option Memo) :=
  if jsstring_eqb memoType (lit "1") then
    if 28 <? getByteLength memoValue then
      Throw (Error (lit "TEXT memo exceeds 28 bytes"))
    else Normal (Some (Memo_text memoValue))
  else if jsstring_eqb memoType (lit "2") then
    match StringToBigInt memoValue with
    | None =>
        Throw (Error (lit "Cannot convert " ++ memoValue ++ lit " to a BigInt"))
    | Some idValue =>
        if (idValue <? 0) || (UINT64_MAX <? idValue) then
          Throw (Error
                   (lit "ID memo must be between 0 and 18446744073709551615"))
        else Normal (Some (Memo_id memoValue))
    end
  else if jsstring_eqb memoType (lit "3") then
    if negb (isValidHex memoValue 64) then
      Throw (Error (lit "HASH memo must be 64 hex characters (32 bytes)"))
    else Normal (Some (Memo_hash memoValue))
  else if jsstring_eqb memoType (lit "4") then
    if negb (isValidHex memoValue 64) then
      Throw (Error (lit "RETURN memo must be 64 hex characters (32 bytes)"))
    else Normal (Some (Memo_return memoValue))
  else Normal None.

Definition getMemoInput : M (option Memo) :=
  console_log (10%N :: lit "Memo types:") ;;;
  console_log (lit "1. TEXT (max 28 bytes)") ;;;
  console_log (lit "2. ID (0 to 18446744073709551615)") ;;;
  console_log (lit "3. HASH (32 byte hex)") ;;;
  console_log (lit "4. RETURN (32 byte hex)") ;;;
  console_log (lit "5. None") ;;;
  memoType <- ask_until (lit "Select memo type (1-5): ")
                (fun answer =>
                   Normal ([], if negb (includes memo_types answer)
                               then None else Some answer)) ;;
  if jsstring_eqb memoType (lit "5") then ret None
  else
    memoValue <- askQuestion (lit "Enter memo value: ") ;;
    lift (memo_of_choice memoType memoValue).

(** Body of the amount loop: [Some amount] is the [break]. *)
Definition amount_body (operationType : OperationType) (amount : jsstring)
  : Completion (list jsstring * option jsstring) :=
  let amountNum := parseFloat amount in
  if isNaN amountNum || num_le amountNum num_zero then
    Normal ([lit "Invalid amount"], None)
  else if match operationType with
          | op_createAccount =>
              num_lt amountNum (parseFloat MIN_ACCOUNT_BALANCE)
          | op_payment => false
          end then
    Normal ([lit "Create Account requires minimum " ++ MIN_ACCOUNT_BALANCE
             ++ lit " XLM"], None)
  else Normal ([], Some amount).

(** The operation added to the builder. *)
Definition operation_for (operationType : OperationType)
    (destination amount : jsstring) : Operation :=
  match operationType with
  | op_createAccount => createAccount destination (formatAmount amount)
  | op_payment => payment destination native (formatAmount amount)
  end.

Section WithLibrary.

Variable sdk : Library.

Definition buildStellarTransaction (server : Horizon) (config : NetworkConfig)
    (networkHash : list Z) : M TransactionData :=
  catch
    (checkAccountActivation server ;;;
     sourceAccount <- loadAccount server SOURCE_PUBLIC_KEY ;;
     destination <- ask_until (lit "Destination address: ")
                      (destination_body sdk) ;;
     destinationExists <- checkDestinationAccountExists server destination ;;
     operationType <-
       (if negb destinationExists then
          console_log (lit "Destination address not activated switching operation to Create Account") ;;;
          ret op_createAccount
        else ret op_payment) ;;
     amount <- ask_until (lit "Amount (XLM): ") (amount_body operationType) ;;
     memo <- getMemoInput ;;
     let txBuilder :=
       newTransactionBuilder sourceAccount (lit "100") (passphrase config) in
     let txBuilder :=
       addOperation (operation_for operationType destination amount)
                    txBuilder in
     let txBuilder := setTimeout 0 txBuilder in
     let txBuilder :=
       match memo with
       | Some m => addMemo m txBuilder
       | None => txBuilder
       end in
     let transaction := build txBuilder in
     let xdr := toEnvelopeXDR sdk transaction in
     ret {| xdr := xdr;
            networkHash := networkHash;
            transaction := transaction;
            details :=
              {| source := SOURCE_PUBLIC_KEY;
                 destination := destination;
                 amount := formatAmount amount;
                 memo := option_map memo_value memo;
                 fee := lit "0.00001";
                 details_sequence := next_sequence sourceAccount |} |})
    (fun error =>
       throw (Error (lit "Failed to build transaction: " ++ message error))).

End WithLibrary.

End Switching.

(** ** The variant that infers the memo type from the input *)

Module ShapeInference.

Local Open Scope js_scope.

(** Body of the amount loop. *)
Definition amount_body (amount : jsstring)
  : Completion (list jsstring * option jsstring) :=
  let amountNum := parseFloat amount in
  let logs := if isNaN amountNum || num_le amountNum num_zero
              then [lit "Invalid amount"] else [] in
  Normal (logs,
          if isNaN (parseFloat amount) || num_le (parseFloat amount) num_zero
          then None else Some amount).

(** [memoInput || null]: the empty string is falsy. *)
Definition memo_or_null (memoInput : jsstring) : option jsstring :=
  match memoInput with
  | [] => None
  | _ => Some memoInput
  end.

(** The memo added to the builder, if any. *)
Definition memo_for (memo : option jsstring) : option Memo :=
  match memo with
  | Some memo =>
      if matches_digits memo && (Z.of_nat (List.length memo) <=? 19)
      then Some (Memo_id memo)
      else Some (Memo_text memo)
  | None => None
  end.

Section WithLibrary.

Variable sdk : Library.

Definition buildStellarTransaction (server : Horizon) : M TransactionData :=
  catch
    (console_log (lit "Loading source account...") ;;;
     sourceAccount <- loadAccount server SOURCE_PUBLIC_KEY ;;
     destination <- ask_until (lit "Destination address: ")
                      (destination_body sdk) ;;
     amount <- ask_until (lit "Amount (XLM): ") amount_body ;;
     memoInput <- askQuestion (lit "Memo (optional): ") ;;
     let memo := memo_or_null memoInput in
     let txBuilder :=
       setTimeout 30
         (addOperation (payment destination native (formatAmount amount))
            (newTransactionBuilder sourceAccount (lit "100")
               (passphrase TESTNET_CONFIG))) in
     let txBuilder :=
       match memo_for memo with
       | Some m => addMemo m txBuilder
       | None => txBuilder
       end in
     let transaction := build txBuilder in
     let xdr := toEnvelopeXDR sdk transaction in
     ret {| xdr := xdr;
            networkHash := TESTNET_NETWORK_HASH;
            transaction := transaction;
            details :=
              {| source := SOURCE_PUBLIC_KEY;
                 destination := destination;
                 amount := formatAmount amount;
                 memo := option_map StringValue memo;
                 fee := lit "0.00001";
                 details_sequence := next_sequence sourceAccount |} |})
    (fun error =>
       if status_is_404 error then
         throw (Error (lit "Source account " ++ SOURCE_PUBLIC_KEY
                       ++ lit " not found on testnet. Fund it first!"))
       else
         throw (Error (lit "Failed to build transaction: " ++ message error))).

End WithLibrary.

End ShapeInference.

(** ** The process around the builder *)

Module Node.

(** The process as the entry point leaves it: the state of the [async]
    functions, and the lines that [console.error] wrote to standard
    error. *)
Record Process : Type := mkProcess {
  world : World;
  stderr : list jsstring
}.

Inductive Step (A : Type) : Type :=
| Done (a : A) (p : Process)
| Failed (e : JsError) (p : Process)
| Blocked (p : Process).
Arguments Done {A} a p.
Arguments Failed {A} e p.
Arguments Blocked {A} p.

Definition P (A : Type) : Type := Process -> Step A.

Definition done {A} (a : A) : P A := fun p => Done a p.

Definition and_then {A B} (c : P A) (k : A -> P B) : P B :=
  fun p =>
    match c p with
    | Done a p' => k a p'
    | Failed e p' => Failed e p'
    | Blocked p' => Blocked p'
    end.

(** An [async] function of the builder, awaited in the process. *)
Definition run {A} (c : M A) : P A :=
  fun p =>
    match c (world p) with
    | Return a w => Done a {| world := w; stderr := stderr p |}
    | Raise e w => Failed e {| world := w; stderr := stderr p |}
    | Waiting w => Blocked {| world := w; stderr := stderr p |}
    end.

Declare Scope node_scope.
Delimit Scope node_scope with node.
Notation "x <- c ;; k" := (and_then c (fun x => k))
  (at level 61, c at next level, right associativity) : node_scope.
Notation "c ;;; k" := (and_then c (fun _ => k))
  (at level 61, right associativity) : node_scope.

Definition console_error (line : jsstring) : P unit :=
  fun p => Done tt {| world := world p; stderr := stderr p ++ [line] |}.

(** How the process ends: [main] returned after [rl.close()], the process
    was ended by [process.exit], or a question is never answered. *)
Inductive Termination : Type :=
| Closed (p : Process)
| Exited (code : Z) (p : Process)
| Pending (p : Process).

(** The frame of every [main]:
    [try { body } catch (error) { console.error('Error:', error.message);
    process.exit(1); } finally { rl.close(); }].  [process.exit] ends the
    process in the [catch] block, before the [finally] block is reached. *)
Definition guarded (body : P unit) (p : Process) : Termination :=
  match body p with
  | Done _ p' => Closed p'
  | Failed error p' =>
      Exited 1 {| world := world p';
                  stderr := stderr p' ++ [lit "Error: " ++ message error] |}
  | Blocked p' => Pending p'
  end.

End Node.
Export Node.

(** ** Menus, display and broadcast, shared by the variants with a menu *)

Module Cli.

Local Open Scope node_scope.

(** [extras.result_codes] of the response to a rejected transaction: the
    result code of the transaction and, when there are any, those of its
    operations. *)
Record ResultCodes : Type := mkResultCodes {
  transaction_code : jsstring;
  operation_codes : option (list jsstring)
}.

(** What [broadcastTransaction] reads of the response to an accepted
    transaction. *)
Record SubmitResult : Type := mkSubmitResult {
  result_hash : jsstring;
  result_ledger : Number
}.

(** [server.submitTransaction] resolves with a result or rejects with an
    error; [result_codes] is [error.response?.data?.extras?.result_codes]. *)
Inductive SubmitReply : Type :=
| Accepted (result : SubmitResult)
| Rejected (error : JsError) (result_codes : option ResultCodes).

(** What the entry point runs against. *)
Record Environment : Type := mkEnvironment {
  stellar : Library;
  (** [TransactionBuilder.fromXDR(envelope, networkPassphrase)]. *)
  fromXDR : jsstring -> jsstring -> Completion Transaction;
  (** [new Horizon.Server(url)], for the accounts. *)
  server_at : jsstring -> Horizon;
  (** [server.submitTransaction(transaction)] on the server at the given
      URL, when [n] calls to Horizon were made before it. *)
  submit_at : jsstring -> nat -> Transaction -> SubmitReply;
  (** How the console prints a value that is not a string. *)
  inspect_number : Number -> jsstring;
  inspect_codes : ResultCodes -> jsstring
}.

(** [String.prototype.toLowerCase] for the Basic Latin letters.  The other
    code units are left as they are: none of them has [y], [e] or [s] in
    its lower-case form, so the comparison with ['yes'] is the one of the
    language. *)
Definition lower_case (c : code_unit) : code_unit :=
  if ((65 <=? c) && (c <=? 90))%N then (c + 32)%N else c.

Definition toLowerCase (s : jsstring) : jsstring := map lower_case s.

Definition menu_choices : list jsstring := [lit "1"; lit "2"].

(** Body of the two [do ... while (!['1', '2'].includes(...))] loops. *)
Definition choice_body (answer : jsstring)
  : Completion (list jsstring * option jsstring) :=
  Normal ([], if negb (Switching.includes menu_choices answer)
              then None else Some answer).

Definition displayTransaction (txData : TransactionData) : M unit :=
  console_log (xdr txData).

(** The transaction was submitted: one more call to Horizon. *)
Definition sent (p : Process) : Process :=
  {| world := {| stdin := stdin (world p); stdout := stdout (world p);
                 requests := S (requests (world p)) |};
     stderr := stderr p |}.

(** [broadcastTransaction(config)]: the [try] block decodes the envelope
    and submits it; the [catch] block prints what was thrown and returns. *)
Definition broadcastTransaction (env : Environment) (config : NetworkConfig)
  : P unit :=
  signedXdr <- run (askQuestion (lit "Enter signed XDR: ")) ;;
  fun p =>
    match fromXDR env signedXdr (passphrase config) with
    | Throw error =>
        console_error (lit "Broadcast error: " ++ message error) p
    | Normal transaction =>
        match submit_at env (horizon config) (requests (world p)) transaction with
        | Accepted result =>
            run (bind (console_log (lit "Transaction successful!")) (fun _ =>
                 bind (console_log (lit "Hash: " ++ result_hash result)) (fun _ =>
                 console_log (lit "Ledger: "
                              ++ inspect_number env (result_ledger result)))))
                (sent p)
        | Rejected error (Some codes) =>
            console_error (lit "Transaction failed: " ++ inspect_codes env codes)
                          (sent p)
        | Rejected error None =>
            console_error (lit "Broadcast error: " ++ message error) (sent p)
        end
    end.

End Cli.
Export Cli.

(** ** [src/build-transaction.ts]: the entry point *)

Module SwitchingEntry.

Local Open Scope node_scope.

Definition main (env : Environment) : Process -> Termination :=
  guarded
    (run (console_log (lit "Select network:")) ;;;
     run (console_log (lit "1. Testnet")) ;;;
     run (console_log (lit "2. Mainnet")) ;;;
     networkChoice <- run (ask_until (lit "Choose network (1-2): ") choice_body) ;;
     let isMainnet := jsstring_eqb networkChoice (lit "2") in
     let config := if isMainnet then MAINNET_CONFIG else TESTNET_CONFIG in
     let networkHash :=
       if isMainnet then MAINNET_NETWORK_HASH else TESTNET_NETWORK_HASH in
     (* [false] is the [return] of the cancelled run *)
     proceed <-
       (if isMainnet then
          run (console_log (lit "WARNING: You are using MAINNET - real XLM will be transferred!")) ;;;
          confirm <- run (askQuestion (lit "Continue? (yes/no): ")) ;;
          if negb (jsstring_eqb (toLowerCase confirm) (lit "yes")) then
            run (console_log (lit "Operation cancelled.")) ;;;
            done false
          else done true
        else done true) ;;
     if proceed then
       run (console_log (lit "Select operation:")) ;;;
       run (console_log (lit "1. Create unsigned transaction")) ;;;
       run (console_log (lit "2. Broadcast signed transaction")) ;;;
       choice <- run (ask_until (lit "Choose option (1-2): ") choice_body) ;;
       if jsstring_eqb choice (lit "1") then
         txData <- run (Switching.buildStellarTransaction (stellar env)
                          (server_at env (horizon config)) config networkHash) ;;
         run (displayTransaction txData)
       else broadcastTransaction env config
     else done tt).

End SwitchingEntry.

(** ** [src/build-transaction.ts], testnet only: memo menu, payment *)

Module TestnetMenu.

Local Open Scope js_scope.

Definition checkAccountActivation (server : Horizon) : M unit :=
  catch (loadAccount server SOURCE_PUBLIC_KEY ;;; ret tt)
        (fun error =>
           if status_is_404 error then
             throw (Error (lit "Source account " ++ SOURCE_PUBLIC_KEY
                           ++ lit " not found on testnet. Fund it first!"))
           else
             throw (Error (lit "Failed to check account: " ++ message error))).

Section WithLibrary.

Variable sdk : Library.

(** The destination and amount loops are those of the shape-inference
    variant, [getMemoInput] is the one of the switching variant. *)
Definition buildStellarTransaction (server : Horizon) : M TransactionData :=
  catch
    (checkAccountActivation server ;;;
     sourceAccount <- loadAccount server SOURCE_PUBLIC_KEY ;;
     destination <- ask_until (lit "Destination address: ")
                      (destination_body sdk) ;;
     amount <- ask_until (lit "Amount (XLM): ") ShapeInference.amount_body ;;
     memo <- Switching.getMemoInput ;;
     let txBuilder :=
       setTimeout 30
         (addOperation (payment destination native (formatAmount amount))
            (newTransactionBuilder sourceAccount (lit "100")
               (passphrase TESTNET_CONFIG))) in
     let txBuilder :=
       match memo with
       | Some m => addMemo m txBuilder
       | None => txBuilder
       end in
     let transaction := build txBuilder in
     let xdr := toEnvelopeXDR sdk transaction in
     ret {| xdr := xdr;
            networkHash := TESTNET_NETWORK_HASH;
            transaction := transaction;
            details :=
              {| source := SOURCE_PUBLIC_KEY;
                 destination := destination;
                 amount := formatAmount amount;
                 memo := option_map memo_value memo;
                 fee := lit "0.00001";
                 details_sequence := next_sequence sourceAccount |} |})
    (fun error =>
       throw (Error (lit "Failed to build transaction: " ++ message error))).

End WithLibrary.

Definition main (env : Environment) : Process -> Termination :=
  guarded
    (run (console_log (lit "Select operation:")) ;;;
     run (console_log (lit "1. Create unsigned transaction")) ;;;
     run (console_log (lit "2. Broadcast signed transaction")) ;;;
     choice <- run (ask_until (lit "Choose option (1-2): ") choice_body) ;;
     if jsstring_eqb choice (lit "1") then
       txData <- run (buildStellarTransaction (stellar env)
                        (server_at env (horizon TESTNET_CONFIG))) ;;
       run (displayTransaction txData)
     else broadcastTransaction env TESTNET_CONFIG)%node.

End TestnetMenu.

(** ** The entry point of the variant that infers the memo type *)

Module ShapeEntry.

Local Open Scope node_scope.

Definition main (env : Environment) : Process -> Termination :=
  guarded
    (txData <- run (ShapeInference.buildStellarTransaction (stellar env)
                      (server_at env (horizon TESTNET_CONFIG))) ;;
     run (displayTransaction txData)).

End ShapeEntry.

(** * Vocabulary of the statements *)

(** ** Binary64 magnitudes *)

(** A magnitude with at most 53 significant bits. *)
Definition representable (k : Z) : Prop :=
  exists m j, 0 <= j /\ 0 <= m < 2 ^ 53 /\ k = m * 2 ^ j.

(** The magnitude of a finite binary64 value. *)
Definition binary64 (k : Z) : Prop :=
  representable k /\ k < overflow_threshold.

(** A negative value so small that [toFixed(7)] prints ["-0.0000000"]. *)
Definition prints_negative_zero (x : Number) : Prop :=
  match x with
  | Finite true k => 0 < k /\ 2 * k * 10 ^ 7 < one_units
  | _ => False
  end.

(** ** Shapes of printed numbers *)

(** The next code unit, if any, is not a digit. *)
Definition stops (rest : jsstring) : Prop :=
  match rest with
  | [] => True
  | c :: _ => is_digit c = false
  end.

(** A fraction part with its point; nothing when there is no digit. *)
Definition point_fraction (fp : jsstring) : jsstring :=
  match fp with
  | [] => []
  | _ => 46%N :: fp
  end.

(** What may follow the digits of a decimal: nothing, or something that
    starts with neither a digit nor a point. *)
Definition tail_ok (tail : jsstring) : Prop :=
  match tail with
  | [] => True
  | c :: _ => is_digit c = false /\ c <> 46%N
  end.

(** The Number that [parseFloat] returns for the digits [ds] scaled by
    [10^e]. *)
Definition decimal_number (negative : bool) (ds : jsstring) (e : Z) : Number :=
  if 0 <=? e then to_binary64 negative (decimal_value ds * 10 ^ e) 1
  else to_binary64 negative (decimal_value ds) (10 ^ (- e)).

(** The digits of [fixed_point] before the point is put in. *)
Definition padded (n : Z) (f : nat) : jsstring :=
  let m := decimal_digits n in
  if (List.length m <=? f)%nat then zeros (f + 1 - List.length m) ++ m else m.

Definition hex_char (c : code_unit) : Prop :=
  (48 <= c <= 57 \/ 97 <= c <= 102 \/ 65 <= c <= 70)%N.

Definition decimal_char (c : code_unit) : Prop := (48 <= c <= 57)%N.


(** ** Runs of [getMemoInput] *)

(** The state in which [getMemoInput] finds the answers [choice] and then
    [line] on standard input. *)
Definition memo_prompt (choice : string) (line : jsstring)
    (rest out : list jsstring) (n : nat) : World :=
  {| stdin := lit choice :: line :: rest; stdout := out; requests := n |}.

Definition memo_menu : list jsstring :=
  [10%N :: lit "Memo types:"; lit "1. TEXT (max 28 bytes)";
   lit "2. ID (0 to 18446744073709551615)"; lit "3. HASH (32 byte hex)";
   lit "4. RETURN (32 byte hex)"; lit "5. None";
   lit "Select memo type (1-5): "; lit "Enter memo value: "].

(** The state once both answers are read. *)
Definition after_memo (rest out : list jsstring) (n : nat) : World :=
  {| stdin := rest; stdout := out ++ memo_menu; requests := n |}.

Definition run_choice (c : Completion (option Memo)) (w : World)
  : Outcome (option Memo) :=
  match c with
  | Normal m => Return m w
  | Throw e => Raise e w
  end.

Definition id_range_error : JsError :=
  Error (lit "ID memo must be between 0 and 18446744073709551615").

(** ** Runs of [buildStellarTransaction] *)

(** What the destination check answers, from the reply of Horizon. *)
Definition destination_exists (reply : Completion Account) : bool :=
  match reply with
  | Normal _ => true
  | Throw e => negb (status_is_404 e)
  end.

(** The reply is an error with HTTP status 404. *)
Definition answers_404 (reply : Completion Account) : Prop :=
  exists e, reply = Throw e /\ status_is_404 e = true.

Definition operation_type_for (destinationExists : bool)
  : Switching.OperationType :=
  if destinationExists then Switching.op_payment else Switching.op_createAccount.

(** The record returned by a run that read the given values. *)
Definition assembled (sdk : Library) (config : NetworkConfig)
    (networkHash : list Z) (sourceAccount : Account)
    (destination : jsstring) (operationType : Switching.OperationType)
    (amount : jsstring) (memo : option Memo) : TransactionData :=
  let txBuilder :=
    setTimeout 0
      (addOperation (Switching.operation_for operationType destination amount)
         (newTransactionBuilder sourceAccount (lit "100") (passphrase config))) in
  let transaction :=
    build (match memo with
           | Some m => addMemo m txBuilder
           | None => txBuilder
           end) in
  {| xdr := toEnvelopeXDR sdk transaction;
     networkHash := networkHash;
     transaction := transaction;
     details :=
       {| source := SOURCE_PUBLIC_KEY;
          destination := destination;
          amount := formatAmount amount;
          memo := option_map memo_value memo;
          fee := lit "0.00001";
          details_sequence := next_sequence sourceAccount |} |}.

(** ** Sample inputs *)

Module Sample.

(** A library instance to run the builder on: it takes the 56-character
    identifiers that start with [G] for account identifiers. *)
Definition library : Library :=
  {| fromPublicKey := fun address =>
       if (List.length address =? 56)%nat && starts_with (lit "G") address
       then Normal {| rawPublicKey := [] |}
       else Throw (Error (lit "invalid encoded string"));
     toEnvelopeXDR := fun _ => lit "AAAAAgAAAADCqTIZAnYwoZ3oQWx9HISjQ+dock" |}.

Definition DESTINATION : jsstring :=
  lit "GA7QYNF7SOWQ3GLR2BGMZEHXAVIRZA4KVWLTJJFC7MGXUA74P7UJVSGZ".

Definition source_account : Account :=
  {| account_id := SOURCE_PUBLIC_KEY; sequence := lit "1024" |}.

Definition ledger_of (accounts : list Account) (address : jsstring)
  : option Account :=
  find (fun a => jsstring_eqb (account_id a) address) accounts.

Definition network_error : JsError :=
  {| message := lit "Network Error"; response_status := None |}.

(** Horizon answers every request; the destination is not on the ledger. *)
Definition healthy : Horizon :=
  {| ledger := ledger_of [source_account]; outage := fun _ => None |}.

(** The third request, the destination check, fails without a response;
    the destination is not on the ledger. *)
Definition flaky : Horizon :=
  {| ledger := ledger_of [source_account];
     outage := fun n => if Nat.eqb n 2 then Some network_error else None |}.

Definition terminal (lines : list jsstring) : World :=
  {| stdin := lines; stdout := []; requests := 0 |}.

(** Destination, amount 10, no memo. *)
Definition answers : list jsstring :=
  [DESTINATION; lit "10"; lit "5"].

(** What the run on [healthy] returns: a create-account operation. *)
Definition created : TransactionData :=
  assembled library TESTNET_CONFIG TESTNET_NETWORK_HASH source_account
    DESTINATION Switching.op_createAccount (lit "10") None.

(** What the run on [flaky] returns: a payment. *)
Definition paid : TransactionData :=
  assembled library TESTNET_CONFIG TESTNET_NETWORK_HASH source_account
    DESTINATION Switching.op_payment (lit "10") None.

End Sample.

(** ** Prompt loops *)

(** What a loop writes for the answers it asks again: the question, then
    the messages for the answer. *)
Definition asked_again (question : jsstring)
    (logs_of : jsstring -> list jsstring) (answers : list jsstring)
  : list jsstring :=
  flat_map (fun a => question :: logs_of a) answers.

(** ** Memos that passed the validation *)

Definition valid_memo (m : option Memo) : Prop :=
  match m with
  | None => True
  | Some (Memo_text v) => getByteLength v <= 28
  | Some (Memo_id v) =>
      exists n, StringToBigInt v = Some n /\ 0 <= n <= Switching.UINT64_MAX
  | Some (Memo_hash v) | Some (Memo_return v) =>
      List.length v = 64%nat /\ Forall hex_char v
  end.

(** ** Records of the payment-only variants *)

(** The record that the two payment-only variants return for the given
    values; [detail] is the memo of the details. *)
Definition payment_record (sdk : Library) (sourceAccount : Account)
    (destination amount : jsstring) (memo : option Memo)
    (detail : option MemoValue) : TransactionData :=
  let txBuilder :=
    setTimeout 30
      (addOperation (payment destination native (formatAmount amount))
         (newTransactionBuilder sourceAccount (lit "100")
            (passphrase TESTNET_CONFIG))) in
  let transaction :=
    build (match memo with
           | Some m => addMemo m txBuilder
           | None => txBuilder
           end) in
  {| xdr := toEnvelopeXDR sdk transaction;
     networkHash := TESTNET_NETWORK_HASH;
     transaction := transaction;
     details :=
       {| source := SOURCE_PUBLIC_KEY;
          destination := destination;
          amount := formatAmount amount;
          memo := detail;
          fee := lit "0.00001";
          details_sequence := next_sequence sourceAccount |} |}.

(** ** Runs of the entry points *)

(** The process with the given lines on standard input, the given lines
    written to the terminal and to standard error, and [n] requests sent. *)
Definition process (lines out : list jsstring) (n : nat) (err : list jsstring)
  : Process :=
  {| world := {| stdin := lines; stdout := out; requests := n |};
     stderr := err |}.

(** A step that writes nothing to standard error when it returns. *)
Definition quiet {A} (c : P A) : Prop :=
  forall p a p', c p = Done a p' -> stderr p' = stderr p.

(** A step that throws only errors with the property [Q], and has written
    nothing to standard error when it throws. *)
Definition throws_only (Q : JsError -> Prop) {A} (c : P A) : Prop :=
  forall p e p', c p = Failed e p' -> Q e /\ stderr p' = stderr p.

(** The message is ["Failed to build transaction: "] and a cause. *)
Definition build_failure (e : JsError) : Prop :=
  exists cause, message e = lit "Failed to build transaction: " ++ cause.

(** The network that the answers select. *)
Definition config_of (mainnet : bool) : NetworkConfig :=
  if mainnet then MAINNET_CONFIG else TESTNET_CONFIG.

Definition hash_of (mainnet : bool) : list Z :=
  if mainnet then MAINNET_NETWORK_HASH else TESTNET_NETWORK_HASH.

(** The answers that select a network, and what is on the terminal once
    they are read. *)
Definition network_answers (mainnet : bool) (confirm : jsstring)
  : list jsstring :=
  if mainnet then [lit "2"; confirm] else [lit "1"].

Definition network_dialogue (mainnet : bool) : list jsstring :=
  [lit "Select network:"; lit "1. Testnet"; lit "2. Mainnet";
   lit "Choose network (1-2): "]
  ++ (if mainnet
      then [lit "WARNING: You are using MAINNET - real XLM will be transferred!";
            lit "Continue? (yes/no): "]
      else []).

Definition operation_dialogue : list jsstring :=
  [lit "Select operation:"; lit "1. Create unsigned transaction";
   lit "2. Broadcast signed transaction"; lit "Choose option (1-2): "].

(** What [main] does once the operation is chosen. *)
Definition chosen_operation (env : Environment) (mainnet build : bool) : P unit :=
  if build then
    and_then
      (run (Switching.buildStellarTransaction (stellar env)
              (server_at env (horizon (config_of mainnet)))
              (config_of mainnet) (hash_of mainnet)))
      (fun txData => run (displayTransaction txData))
  else broadcastTransaction env (config_of mainnet).

(** ** Further sample inputs *)

Module Scenario.

(** Horizon answers every request; no account is on the ledger. *)
Definition unfunded : Horizon :=
  {| ledger := fun _ => None; outage := fun _ => None |}.

(** Destination, amount 10, a TEXT memo. *)
Definition answers_with_memo : list jsstring :=
  [Sample.DESTINATION; lit "10"; lit "1"; lit "invoice 42"].

(** What the switching variant returns on [Sample.healthy] for
    [answers_with_memo]. *)
Definition created_with_memo : TransactionData :=
  assembled Sample.library TESTNET_CONFIG TESTNET_NETWORK_HASH
    Sample.source_account Sample.DESTINATION Switching.op_createAccount
    (lit "10") (Some (Memo_text (lit "invoice 42"))).

(** What the shape-inference variant returns on [Sample.healthy] for the
    answers destination, ["10"], ["12345"]. *)
Definition shape_paid : TransactionData :=
  payment_record Sample.library Sample.source_account Sample.DESTINATION
    (lit "10") (Some (Memo_id (lit "12345")))
    (Some (StringValue (lit "12345"))).

(** What the testnet-only variant returns on [Sample.healthy] for
    [answers_with_memo]. *)
Definition testnet_paid : TransactionData :=
  payment_record Sample.library Sample.source_account Sample.DESTINATION
    (lit "10") (Some (Memo_text (lit "invoice 42")))
    (Some (StringValue (lit "invoice 42"))).

Definition signed_envelope : jsstring :=
  lit "AAAAAgAAAADCqTIZAnYwoZ3oQWx9HISjQ+dock".

Definition underfunded : ResultCodes :=
  {| transaction_code := lit "tx_failed";
     operation_codes := Some [lit "op_underfunded"] |}.

(** An environment in which only [signed_envelope] decodes, Horizon
    answers for the accounts as [server] does on either network, and
    rejects every transaction as underfunded. *)
Definition environment (server : Horizon) : Environment :=
  {| stellar := Sample.library;
     fromXDR := fun envelope _ =>
       if jsstring_eqb envelope signed_envelope
       then Normal (transaction Sample.paid)
       else Throw (Error (lit "XDR Read Error: unknown EnvelopeType"));
     server_at := fun _ => server;
     submit_at := fun _ _ _ =>
       Rejected {| message := lit "Request failed with status code 400";
                   response_status := Some 400 |}
                (Some underfunded);
     inspect_number := toString;
     inspect_codes := transaction_code |}.

End Scenario.

(** * Rounding to binary64 *)

Lemma round_half_even_cases (a b : Z) :
  0 < b ->
  let r := round_half_even a b in
  (r = a / b /\ 2 * (a mod b) <= b) \/ (r = a / b + 1 /\ b <= 2 * (a mod b)).
Proof.
  intros Hb. unfold round_half_even. cbv zeta.
  destruct (Z.compare_spec (2 * (a mod b)) b) as [E | L | G].
  - destruct (Z.even (a / b)); [left | right]; split; lia.
  - left; split; lia.
  - right; split; lia.
Qed.

Lemma round_half_even_nearest (a b d : Z) :
  0 < b -> Z.abs (b * round_half_even a b - a) <= Z.abs (b * d - a).
Proof.
  intros Hb.
  pose proof (Z.div_mod a b ltac:(lia)) as Hdm.
  pose proof (Z.mod_pos_bound a b Hb) as Hm.
  destruct (round_half_even_cases a b Hb) as [[-> H] | [-> H]];
    destruct (Z_le_gt_dec d (a / b)); nia.
Qed.

Lemma round_half_even_ratio (a1 b1 a2 b2 : Z) :
  0 < b1 -> 0 < b2 -> a1 * b2 = a2 * b1 ->
  round_half_even a1 b1 = round_half_even a2 b2.
Proof.
  intros H1 H2 E.
  assert (Hq : a1 / b1 = a2 / b2).
  { pose proof (Z.div_mod a2 b2 ltac:(lia)) as D2.
    pose proof (Z.mod_pos_bound a2 b2 H2) as M2.
    assert (K : b2 * (a1 - b1 * (a2 / b2)) = b1 * (a2 mod b2)) by lia.
    symmetry.
    apply Z.div_unique with (r := a1 - b1 * (a2 / b2)); [left | lia].
    split.
    - apply Z.mul_le_mono_pos_l with (p := b2); [lia |].
      rewrite K. nia.
    - apply Z.mul_lt_mono_pos_l with (p := b2); [lia |].
      rewrite K. nia. }
  unfold round_half_even. rewrite <- Hq.
  pose proof (Z.div_mod a1 b1 ltac:(lia)) as D1.
  pose proof (Z.div_mod a2 b2 ltac:(lia)) as D2.
  rewrite <- Hq in D2.
  assert (Hc : (2 * (a1 mod b1) ?= b1) = (2 * (a2 mod b2) ?= b2)).
  { destruct (Z.compare_spec (2 * (a1 mod b1)) b1);
      destruct (Z.compare_spec (2 * (a2 mod b2)) b2); try reflexivity; nia. }
  rewrite Hc. reflexivity.
Qed.

Lemma div_ratio (a1 b1 a2 b2 : Z) :
  0 < b1 -> 0 < b2 -> a1 * b2 = a2 * b1 -> a1 / b1 = a2 / b2.
Proof.
  intros H1 H2 E.
  pose proof (Z.div_mod a2 b2 ltac:(lia)) as D2.
  pose proof (Z.mod_pos_bound a2 b2 H2) as M2.
  assert (K : b2 * (a1 - b1 * (a2 / b2)) = b1 * (a2 mod b2)) by lia.
  symmetry.
  apply Z.div_unique with (r := a1 - b1 * (a2 / b2)); [left | lia].
  split.
  - apply Z.mul_le_mono_pos_l with (p := b2); [lia |]. rewrite K. nia.
  - apply Z.mul_lt_mono_pos_l with (p := b2); [lia |]. rewrite K. nia.
Qed.

Lemma quantum_pos f : 0 < quantum f.
Proof. unfold quantum. apply Z.pow_pos_nonneg; lia. Qed.

Lemma round_units_ratio (p1 q1 p2 q2 : Z) :
  0 < q1 -> 0 < q2 -> p1 * q2 = p2 * q1 ->
  round_units p1 q1 = round_units p2 q2.
Proof.
  intros H1 H2 E. unfold round_units.
  rewrite (div_ratio p1 q1 p2 q2 H1 H2 E).
  set (t := quantum (p2 / q2)).
  pose proof (quantum_pos (p2 / q2)) as Ht. fold t in Ht.
  f_equal. apply round_half_even_ratio; nia.
Qed.

Lemma round_half_even_exact (c b : Z) : 0 < b -> round_half_even (c * b) b = c.
Proof.
  intros Hb. unfold round_half_even.
  rewrite Z.div_mul by lia. rewrite Z.mod_mul by lia.
  change (2 * 0) with 0. destruct (Z.compare_spec 0 b); lia.
Qed.

Lemma representable_nonneg k : representable k -> 0 <= k.
Proof.
  intros (m & j & Hj & Hm & ->).
  pose proof (Z.pow_pos_nonneg 2 j ltac:(lia) Hj). nia.
Qed.

Lemma quantum_divides k : representable k -> (quantum k | k).
Proof.
  intros (m & j & Hj & Hm & ->). unfold quantum.
  destruct (Z.eq_dec m 0) as [-> | Hm0].
  { rewrite Z.mul_0_l. apply Z.divide_0_r. }
  rewrite Z.log2_mul_pow2 by lia.
  assert (Z.log2 m < 53) by (apply Z.log2_lt_pow2; lia).
  apply Z.divide_trans with (m := 2 ^ j).
  - exists (2 ^ (j - Z.max 0 (j + Z.log2 m - 52))).
    rewrite <- Z.pow_add_r by lia. f_equal. lia.
  - apply Z.divide_factor_r.
Qed.

Lemma round_units_exact (k q : Z) :
  representable k -> 0 < q -> round_units (k * q) q = k.
Proof.
  intros Hk Hq. unfold round_units.
  rewrite Z.div_mul by lia.
  destruct (quantum_divides k Hk) as [c Hc].
  pose proof (quantum_pos k) as Ht.
  rewrite Hc at 1.
  replace (c * quantum k * q) with (c * (q * quantum k)) by ring.
  rewrite round_half_even_exact by nia. lia.
Qed.

Lemma floor_quantum_bound f :
  0 <= f -> f / quantum f < 2 ^ 53.
Proof.
  intros Hf. unfold quantum.
  apply Z.div_lt_upper_bound; [apply Z.pow_pos_nonneg; lia |].
  rewrite <- Z.pow_add_r by lia.
  destruct (Z.eq_dec f 0) as [-> | Hf0].
  { apply Z.pow_pos_nonneg; lia. }
  pose proof (Z.log2_spec f ltac:(lia)) as [_ Hup].
  eapply Z.lt_le_trans; [exact Hup |].
  apply Z.pow_le_mono_r; lia.
Qed.

Lemma round_units_representable (p q : Z) :
  0 <= p -> 0 < q -> representable (round_units p q).
Proof.
  intros Hp Hq. unfold round_units.
  set (f := p / q).
  assert (Hf : 0 <= f) by (apply Z.div_pos; lia).
  pose proof (quantum_pos f) as Ht.
  pose proof (floor_quantum_bound f Hf) as Hb.
  assert (Hdd : p / (q * quantum f) = f / quantum f).
  { unfold f in *. rewrite Z.div_div by lia. reflexivity. }
  assert (Hq0 : 0 <= p / (q * quantum f)) by (apply Z.div_pos; nia).
  destruct (round_half_even_cases p (q * quantum f) ltac:(nia)) as [[Hr _] | [Hr _]];
    cbv zeta in Hr; rewrite Hr.
  - exists (f / quantum f), (Z.max 0 (Z.log2 f - 52)).
    rewrite Hdd. repeat split; lia.
  - destruct (Z.eq_dec (f / quantum f + 1) (2 ^ 53)) as [E | NE].
    + exists (2 ^ 52), (Z.max 0 (Z.log2 f - 52) + 1).
      rewrite Hdd, E. repeat split; try lia.
      unfold quantum. rewrite Z.pow_add_r by lia. lia.
    + exists (f / quantum f + 1), (Z.max 0 (Z.log2 f - 52)).
      rewrite Hdd. repeat split; lia.
Qed.

Lemma round_units_nearest (p q d : Z) :
  0 <= p -> 0 < q -> representable d ->
  Z.abs (q * round_units p q - p) <= Z.abs (q * d - p).
Proof.
  intros Hp Hq (m & j & Hj & Hm & ->). unfold round_units.
  set (f := p / q).
  assert (Hf : 0 <= f) by (apply Z.div_pos; lia).
  pose proof (quantum_pos f) as Ht.
  set (jj := Z.max 0 (Z.log2 f - 52)).
  assert (Et : quantum f = 2 ^ jj) by reflexivity.
  replace (q * (round_half_even p (q * quantum f) * quantum f))
    with (q * quantum f * round_half_even p (q * quantum f)) by ring.
  destruct (Z_le_gt_dec jj j) as [Hle | Hgt].
  - replace (q * (m * 2 ^ j)) with (q * quantum f * (m * 2 ^ (j - jj))).
    + apply round_half_even_nearest. nia.
    + rewrite Et. replace (2 ^ j) with (2 ^ jj * 2 ^ (j - jj)).
      * ring.
      * rewrite <- Z.pow_add_r by lia. f_equal. lia.
  - assert (Hjj : jj = Z.log2 f - 52) by lia.
    assert (Hfpos : 0 < f).
    { destruct (Z.eq_dec f 0) as [E | ]; [| lia].
      rewrite E in Hjj. simpl in Hjj. lia. }
    pose proof (Z.log2_spec f Hfpos) as [Hlo _].
    assert (E52 : 2 ^ Z.log2 f = 2 ^ 52 * 2 ^ jj).
    { rewrite <- Z.pow_add_r by lia. f_equal. lia. }
    assert (Hd : m * 2 ^ j < 2 ^ 52 * 2 ^ jj).
    { assert (2 ^ j * 2 <= 2 ^ jj).
      { replace (2 ^ j * 2) with (2 ^ (j + 1)) by (rewrite Z.pow_add_r by lia; lia).
        apply Z.pow_le_mono_r; lia. }
      pose proof (Z.pow_pos_nonneg 2 j ltac:(lia) Hj).
      change (2 ^ 53) with (2 ^ 52 * 2) in Hm. nia. }
    assert (Hfp : q * f <= p).
    { unfold f. apply Z.mul_div_le. lia. }
    pose proof (round_half_even_nearest p (q * quantum f) (2 ^ 52) ltac:(nia)) as Hn.
    rewrite Et in *.
    assert (q * (2 ^ 52 * 2 ^ jj) <= p) by nia.
    assert (q * (m * 2 ^ j) < q * (2 ^ 52 * 2 ^ jj)) by nia.
    lia.
Qed.

(** Bounds on the rounded magnitude. *)
Lemma round_units_upper (p q : Z) :
  0 <= p -> 0 < q -> round_units p q <= 2 * (p / q) + 1.
Proof.
  intros Hp Hq. unfold round_units.
  set (f := p / q).
  assert (Hf : 0 <= f) by (apply Z.div_pos; lia).
  pose proof (quantum_pos f) as Ht.
  assert (Hdd : p / (q * quantum f) = f / quantum f).
  { unfold f in *. rewrite Z.div_div by lia. reflexivity. }
  assert (Hr : round_half_even p (q * quantum f) <= f / quantum f + 1).
  { destruct (round_half_even_cases p (q * quantum f) ltac:(nia)) as [[Hr _] | [Hr _]];
      cbv zeta in Hr; rewrite Hr, Hdd; lia. }
  assert (Hqf : quantum f * (f / quantum f) <= f) by (apply Z.mul_div_le; lia).
  assert (Htf : quantum f <= f + 1).
  { unfold quantum.
    destruct (Z_le_gt_dec (Z.log2 f - 52) 0).
    - rewrite Z.max_l by lia. simpl. lia.
    - rewrite Z.max_r by lia.
      assert (0 < f).
      { destruct (Z.eq_dec f 0) as [E | ]; [rewrite E in *; simpl in *; lia | lia]. }
      pose proof (Z.log2_spec f ltac:(lia)) as [Hlo _].
      assert (2 ^ (Z.log2 f - 52) <= 2 ^ Z.log2 f) by (apply Z.pow_le_mono_r; lia).
      lia. }
  nia.
Qed.

Lemma round_units_pos (p q : Z) :
  0 < q -> q <= p -> 0 < round_units p q.
Proof.
  intros Hq Hp. unfold round_units.
  set (f := p / q).
  assert (Hf : 1 <= f).
  { unfold f. apply Z.div_le_lower_bound; lia. }
  pose proof (quantum_pos f) as Ht.
  assert (Hdd : p / (q * quantum f) = f / quantum f).
  { unfold f in *. rewrite Z.div_div by lia. reflexivity. }
  assert (Hr : f / quantum f <= round_half_even p (q * quantum f)).
  { destruct (round_half_even_cases p (q * quantum f) ltac:(nia)) as [[Hr _] | [Hr _]];
      cbv zeta in Hr; rewrite Hr, Hdd; lia. }
  assert (1 <= f / quantum f).
  { apply Z.div_le_lower_bound; [lia |].
    unfold quantum.
    destruct (Z_le_gt_dec (Z.log2 f - 52) 0).
    - rewrite Z.max_l by lia. simpl. lia.
    - rewrite Z.max_r by lia.
      pose proof (Z.log2_spec f ltac:(lia)) as [Hlo _].
      assert (2 ^ (Z.log2 f - 52) <= 2 ^ Z.log2 f) by (apply Z.pow_le_mono_r; lia).
      lia. }
  nia.
Qed.

Lemma one_units_pos : 0 < one_units.
Proof. reflexivity. Qed.

Lemma one_units_large : 2 ^ 60 <= one_units.
Proof. unfold one_units, unit_exp. apply Z.pow_le_mono_r; lia. Qed.

Lemma one_units_not_mult_5 : forall c, one_units <> 5 * c.
Proof.
  intros c E.
  assert (H : one_units mod 5 = 0) by (rewrite E, Z.mul_comm; apply Z.mod_mul; lia).
  vm_compute in H. discriminate.
Qed.

Lemma representable_large_multiple (x : Z) :
  representable x -> 2 ^ 53 * one_units <= x -> exists c, x = c * one_units.
Proof.
  intros (m & j & Hj & Hm & ->) Hx.
  assert (Hlt : 1074 < j).
  { destruct (Z_le_gt_dec j 1074) as [Hle | ]; [| lia].
    exfalso.
    assert (2 ^ j <= one_units) by (apply Z.pow_le_mono_r; [lia | exact Hle]).
    pose proof one_units_pos. pose proof (Z.pow_pos_nonneg 2 j ltac:(lia) Hj). nia. }
  exists (m * 2 ^ (j - 1074)).
  rewrite <- Z.mul_assoc. f_equal.
  unfold one_units, unit_exp. rewrite <- Z.pow_add_r by lia. f_equal. lia.
Qed.

(** Rounding [x] to seven decimals, reading the decimal back and rounding
    again gives the same seven decimals. *)
Lemma fixed_digits_stable (x : Z) :
  representable x -> x < 10 ^ 21 * one_units ->
  let n := (2 * x * 10 ^ 7 + one_units) / (2 * one_units) in
  let y := round_units (n * one_units) (10 ^ 7) in
  (2 * y * 10 ^ 7 + one_units) / (2 * one_units) = n
  /\ y < 10 ^ 21 * one_units
  /\ (0 < n -> 0 < y)
  /\ 0 <= n.
Proof.
  intros Hx Hlt.
  pose proof (representable_nonneg x Hx) as Hx0.
  pose proof one_units_pos as HU. pose proof one_units_large as HUl.
  change (2 ^ 60) with 1152921504606846976 in HUl.
  change (10 ^ 21) with 1000000000000000000000 in *.
  change (10 ^ 7) with 10000000.
  set (U := one_units) in *.
  intros n y.
  assert (Hn : 2 * U * n <= 2 * x * 10000000 + U < 2 * U * n + 2 * U).
  { pose proof (Z.div_mod (2 * x * 10000000 + U) (2 * U) ltac:(lia)) as D.
    pose proof (Z.mod_pos_bound (2 * x * 10000000 + U) (2 * U) ltac:(lia)) as B.
    fold n in D. lia. }
  assert (Hn0 : 0 <= n) by nia.
  pose proof (round_units_nearest (n * U) 10000000 x ltac:(nia) ltac:(lia) Hx) as Hnear.
  fold y in Hnear.
  assert (Hy0 : 0 <= y).
  { apply representable_nonneg. apply round_units_representable; nia. }
  repeat split.
  - symmetry. apply Z.div_unique with (r := 2 * y * 10000000 + U - 2 * U * n); [left | lia].
    assert (Hne : 2 * (10000000 * y - n * U) <> U).
    { intros E.
      assert (E2 : 2 * (10000000 * x - n * U) = - U) by lia.
      apply (one_units_not_mult_5 (2000000 * (y - x))). fold U. lia. }
    lia.
  - destruct (Z_lt_ge_dec x (2 ^ 53 * U)) as [Hs | Hb].
    + change (2 ^ 53) with 9007199254740992 in Hs.
      pose proof (round_units_upper (n * U) 10000000 ltac:(nia) ltac:(lia)) as Hup.
      fold y in Hup.
      assert ((n * U) / 10000000 <= x + U).
      { apply Z.div_le_upper_bound; lia. }
      lia.
    + destruct (representable_large_multiple x Hx ltac:(fold U; lia)) as [c Hc]. fold U in Hc.
      assert (En : n = c * 10000000).
      { unfold n. symmetry.
        apply Z.div_unique with (r := U); [left; lia | rewrite Hc; ring]. }
      unfold y. rewrite En.
      replace (c * 10000000 * U) with (x * 10000000) by (rewrite Hc; ring).
      rewrite round_units_exact by (assumption || lia). lia.
  - intros Hpos. unfold y. apply round_units_pos; [lia | nia].
  - exact Hn0.
Qed.

(** ** Digit strings *)

Lemma is_digit_spec c : is_digit c = true <-> (48 <= c <= 57)%N.
Proof.
  unfold is_digit. rewrite andb_true_iff, !N.leb_le. tauto.
Qed.

Lemma digit_not_whitespace c : is_digit c = true -> is_whitespace c = false.
Proof.
  rewrite is_digit_spec. intros H. unfold is_whitespace.
  assert (E1 : (c <=? 13)%N = false) by (apply N.leb_gt; lia).
  assert (E2 : (8192 <=? c)%N = false) by (apply N.leb_gt; lia).
  rewrite E1, E2, andb_false_r. cbn [orb andb].
  repeat match goal with
         | |- context [(c =? ?b)%N] =>
             replace (c =? b)%N with false by (symmetry; apply N.eqb_neq; lia)
         end.
  reflexivity.
Qed.

Lemma digit_char_is_digit d : 0 <= d <= 9 -> is_digit (digit_char d) = true.
Proof.
  intros H. apply is_digit_spec. unfold digit_char. lia.
Qed.

Lemma digit_value_char d : 0 <= d <= 9 -> digit_value (digit_char d) = d.
Proof.
  intros H. unfold digit_value, digit_char. lia.
Qed.

Lemma digit_value_range c : is_digit c = true -> 0 <= digit_value c <= 9.
Proof.
  rewrite is_digit_spec. unfold digit_value. lia.
Qed.

Lemma decimal_fold_shift (b : jsstring) (x : Z) :
  fold_left (fun acc c => 10 * acc + digit_value c) b x
  = x * 10 ^ Z.of_nat (List.length b) + decimal_value b.
Proof.
  unfold decimal_value, radix_value. revert x.
  induction b as [| c b IH]; intros x.
  - simpl. lia.
  - cbn [fold_left List.length]. rewrite IH, (IH (10 * 0 + digit_value c)).
    rewrite Nat2Z.inj_succ, Z.pow_succ_r by lia. ring.
Qed.

Lemma decimal_value_app (a b : jsstring) :
  decimal_value (a ++ b)
  = decimal_value a * 10 ^ Z.of_nat (List.length b) + decimal_value b.
Proof.
  unfold decimal_value at 1. unfold radix_value. rewrite fold_left_app.
  apply decimal_fold_shift.
Qed.

Lemma decimal_value_single c : decimal_value [c] = digit_value c.
Proof. unfold decimal_value, radix_value. simpl. lia. Qed.

Lemma decimal_value_zeros z : decimal_value (zeros z) = 0.
Proof.
  induction z as [| z IH]; [reflexivity |].
  change (zeros (S z)) with ([48%N] ++ zeros z).
  rewrite decimal_value_app, IH, decimal_value_single. reflexivity.
Qed.

Lemma zeros_length z : List.length (zeros z) = z.
Proof. apply repeat_length. Qed.

Lemma zeros_digits z : Forall (fun c => is_digit c = true) (zeros z).
Proof.
  induction z; constructor; [reflexivity | assumption].
Qed.

Lemma decimal_value_nonneg ds :
  Forall (fun c => is_digit c = true) ds -> 0 <= decimal_value ds.
Proof.
  induction ds as [| c ds IH] using rev_ind; intros H.
  - reflexivity.
  - apply Forall_app in H as [Ha Hc]. inversion Hc; subst.
    rewrite decimal_value_app, decimal_value_single.
    pose proof (digit_value_range c H1). specialize (IH Ha).
    change (Z.of_nat (List.length [c])) with 1. lia.
Qed.

Lemma to_digits_spec (fuel : nat) :
  forall n acc, 0 <= n < 2 ^ Z.of_nat (S fuel) ->
    exists ds, to_digits (S fuel) n acc = ds ++ acc
               /\ Forall (fun c => is_digit c = true) ds
               /\ ds <> []
               /\ decimal_value ds = n.
Proof.
  induction fuel as [| fuel IH]; intros n acc Hn.
  - change (2 ^ Z.of_nat 1) with 2 in Hn.
    cbn [to_digits]. destruct (Z.ltb_spec n 10); [| lia].
    exists [digit_char (n mod 10)]. repeat split.
    + constructor; [| constructor]. apply digit_char_is_digit.
      pose proof (Z.mod_pos_bound n 10); lia.
    + discriminate.
    + rewrite decimal_value_single, digit_value_char.
      * apply Z.mod_small; lia.
      * pose proof (Z.mod_pos_bound n 10); lia.
  - remember (S fuel) as f eqn:Ef.
    cbn [to_digits].
    pose proof (Z.mod_pos_bound n 10 ltac:(lia)) as Hm.
    destruct (Z.ltb_spec n 10) as [Hs | Hb].
    + exists [digit_char (n mod 10)]. repeat split.
      * constructor; [| constructor]. apply digit_char_is_digit. lia.
      * discriminate.
      * rewrite decimal_value_single, digit_value_char by lia.
        apply Z.mod_small; lia.
    + subst f.
      assert (Hd : 0 <= n / 10 < 2 ^ Z.of_nat (S fuel)).
      { split; [apply Z.div_pos; lia |].
        apply Z.div_lt_upper_bound; [lia |].
        rewrite (Nat2Z.inj_succ (S fuel)), Z.pow_succ_r in Hn by lia. lia. }
      destruct (IH (n / 10) (digit_char (n mod 10) :: acc) Hd)
        as (ds & E & Hall & Hne & Hv).
      exists (ds ++ [digit_char (n mod 10)]). repeat split.
      * rewrite E, <- app_assoc. reflexivity.
      * apply Forall_app; split; [assumption |].
        constructor; [| constructor]. apply digit_char_is_digit. lia.
      * destruct ds; discriminate.
      * rewrite decimal_value_app, decimal_value_single, Hv,
          digit_value_char by lia.
        change (Z.of_nat (List.length [digit_char (n mod 10)])) with 1.
        pose proof (Z.div_mod n 10 ltac:(lia)). lia.
Qed.

Lemma decimal_digits_spec (n : Z) :
  0 <= n ->
  Forall (fun c => is_digit c = true) (decimal_digits n)
  /\ decimal_digits n <> []
  /\ decimal_value (decimal_digits n) = n.
Proof.
  intros Hn. unfold decimal_digits.
  assert (Hb : 0 <= n < 2 ^ Z.of_nat (S (Z.to_nat (Z.log2 n)))).
  { split; [assumption |].
    rewrite Nat2Z.inj_succ, Z2Nat.id by apply Z.log2_nonneg.
    destruct (Z.eq_dec n 0) as [-> | Hne]; [reflexivity |].
    apply Z.log2_spec. lia. }
  destruct (to_digits_spec _ n [] Hb) as (ds & E & Hall & Hne & Hv).
  rewrite E, app_nil_r. auto.
Qed.

(** ** Reading digits back *)

Lemma span_digits (a rest : jsstring) :
  Forall (fun c => is_digit c = true) a -> stops rest ->
  span is_digit (a ++ rest) = (a, rest).
Proof.
  intros Ha Hr. induction Ha as [| c a Hc Ha IH].
  - simpl. destruct rest as [| c r]; [reflexivity |].
    simpl in Hr |- *. rewrite Hr. reflexivity.
  - cbn [app span]. rewrite Hc, IH. reflexivity.
Qed.

Lemma parseFloat_unsigned (negative : bool) (d : code_unit) (s : jsstring) :
  is_digit d = true ->
  parseFloat (sign_prefix negative ++ d :: s)
  = let '(ip, r1) := span is_digit (d :: s) in
    let '(fp, r2) :=
      match r1 with
      | c :: r => if (c =? 46)%N then span is_digit r else ([], r1)
      | [] => ([], r1)
      end in
    match ip ++ fp with
    | [] => NaN
    | ds => decimal_number negative ds
              (exponent_part r2 - Z.of_nat (List.length fp))
    end.
Proof.
  intros Hd.
  pose proof (digit_not_whitespace d Hd) as Hw.
  apply is_digit_spec in Hd.
  assert (E45 : (d =? 45)%N = false) by (apply N.eqb_neq; lia).
  assert (E43 : (d =? 43)%N = false) by (apply N.eqb_neq; lia).
  assert (E73 : (73 =? d)%N = false) by (apply N.eqb_neq; lia).
  unfold parseFloat.
  assert (Es : strip_sign (trimStart (sign_prefix negative ++ d :: s))
               = (negative, d :: s)).
  { destruct negative; cbn [sign_prefix app].
    - change (lit "-" ++ d :: s) with (45%N :: d :: s).
      cbn [trimStart]. change (is_whitespace 45%N) with false. cbn iota.
      reflexivity.
    - cbn [trimStart]. rewrite Hw. unfold strip_sign. rewrite E45, E43.
      reflexivity. }
  rewrite Es.
  assert (Ei : starts_with (lit "Infinity") (d :: s) = false).
  { change (lit "Infinity") with (73%N :: lit "nfinity").
    cbn [starts_with]. rewrite E73. reflexivity. }
  rewrite Ei. reflexivity.
Qed.

Lemma parseFloat_decimal (negative : bool) (ip fp tail : jsstring) :
  Forall (fun c => is_digit c = true) ip -> ip <> [] ->
  Forall (fun c => is_digit c = true) fp -> tail_ok tail ->
  parseFloat (sign_prefix negative ++ ip ++ point_fraction fp ++ tail)
  = decimal_number negative (ip ++ fp)
      (exponent_part tail - Z.of_nat (List.length fp)).
Proof.
  intros Hip Hne Hfp Htail.
  destruct ip as [| d ip']; [contradiction |].
  inversion Hip as [| ? ? Hd Hip']; subst.
  cbn [app]. rewrite parseFloat_unsigned by assumption.
  change (d :: ip' ++ point_fraction fp ++ tail)
    with ((d :: ip') ++ point_fraction fp ++ tail).
  assert (Hstop : stops (point_fraction fp ++ tail)).
  { destruct fp as [| c fp'].
    - destruct tail as [| c r]; [exact I | apply Htail].
    - reflexivity. }
  rewrite (span_digits _ _ Hip Hstop).
  destruct fp as [| c fp'].
  - cbn [point_fraction app].
    destruct tail as [| c r].
    + rewrite app_nil_r. reflexivity.
    + destruct Htail as [_ Hc]. apply N.eqb_neq in Hc. rewrite Hc.
      rewrite app_nil_r. reflexivity.
  - cbn [point_fraction app]. rewrite N.eqb_refl.
    assert (Hst : stops tail).
    { destruct tail as [| t r]; [exact I | apply Htail]. }
    change (c :: fp' ++ tail) with ((c :: fp') ++ tail).
    rewrite (span_digits _ _ Hfp Hst). reflexivity.
Qed.

Lemma exponent_part_nil : exponent_part [] = 0.
Proof. reflexivity. Qed.

Lemma padded_spec (n : Z) (f : nat) :
  0 <= n ->
  Forall (fun c => is_digit c = true) (padded n f)
  /\ (f < List.length (padded n f))%nat
  /\ decimal_value (padded n f) = n.
Proof.
  intros Hn. destruct (decimal_digits_spec n Hn) as (Hall & Hne & Hv).
  unfold padded. cbv zeta.
  destruct (Nat.leb_spec (List.length (decimal_digits n)) f) as [Hle | Hgt].
  - repeat split.
    + apply Forall_app; split; [apply zeros_digits | assumption].
    + rewrite length_app, zeros_length. lia.
    + rewrite decimal_value_app, decimal_value_zeros, Hv. lia.
  - auto.
Qed.

Lemma fixed_point_split (n : Z) (f : nat) :
  fixed_point n (S f)
  = firstn (List.length (padded n (S f)) - S f) (padded n (S f))
    ++ lit "." ++ skipn (List.length (padded n (S f)) - S f) (padded n (S f)).
Proof. reflexivity. Qed.

Lemma parseFloat_fixed_point (negative : bool) (n : Z) :
  0 <= n ->
  parseFloat (sign_prefix negative ++ fixed_point n 7)
  = to_binary64 negative n (10 ^ 7).
Proof.
  intros Hn. rewrite fixed_point_split.
  destruct (padded_spec n 7 Hn) as (Hall & Hlen & Hv).
  set (m := padded n 7) in *.
  set (cut := (List.length m - 7)%nat).
  assert (Hm : firstn cut m ++ skipn cut m = m) by apply firstn_skipn.
  assert (Hfl : List.length (skipn cut m) = 7%nat).
  { rewrite length_skipn. unfold cut. lia. }
  assert (Hfn : firstn cut m <> []).
  { intros E. apply (f_equal (@List.length _)) in E.
    rewrite length_firstn in E. simpl in E. unfold cut in E. lia. }
  assert (Hpf : lit "." ++ skipn cut m = point_fraction (skipn cut m) ++ []).
  { rewrite app_nil_r. destruct (skipn cut m); [discriminate Hfl | reflexivity]. }
  rewrite Hpf.
  rewrite parseFloat_decimal.
  - rewrite Hm, Hfl, exponent_part_nil. unfold decimal_number.
    change (0 <=? 0 - Z.of_nat 7) with false. cbv iota.
    rewrite Hv. reflexivity.
  - rewrite <- Hm in Hall. apply Forall_app in Hall. apply Hall.
  - exact Hfn.
  - rewrite <- Hm in Hall. apply Forall_app in Hall. apply Hall.
  - exact I.
Qed.

(** ** [toFixed(7)] read back and printed again *)

Lemma to_binary64_finite (negative : bool) (num den : Z) :
  round_units (num * one_units) den < overflow_threshold ->
  to_binary64 negative num den
  = Finite negative (round_units (num * one_units) den).
Proof.
  intros H. unfold to_binary64. cbv zeta.
  destruct (Z.leb_spec overflow_threshold (round_units (num * one_units) den));
    [lia | reflexivity].
Qed.

Lemma million_below_overflow : 10 ^ 21 * one_units < overflow_threshold.
Proof. reflexivity. Qed.

Lemma toFixed_small (negative : bool) (k : Z) :
  k < 10 ^ 21 * one_units ->
  toFixed (Finite negative k) 7
  = sign_prefix (negative && (0 <? k))
    ++ fixed_point ((2 * k * 10 ^ 7 + one_units) / (2 * one_units)) 7.
Proof.
  intros Hk. unfold toFixed.
  destruct (Z.leb_spec (10 ^ 21 * one_units) k); [lia |].
  reflexivity.
Qed.

Lemma toFixed_reparse_small (negative : bool) (k : Z) :
  representable k -> k < 10 ^ 21 * one_units ->
  ~ prints_negative_zero (Finite negative k) ->
  toFixed (parseFloat (toFixed (Finite negative k) 7)) 7
  = toFixed (Finite negative k) 7.
Proof.
  intros Hk Hlt Hnz.
  pose proof (representable_nonneg k Hk) as Hk0.
  destruct (fixed_digits_stable k Hk Hlt) as (Hst & Hylt & Hypos & Hn0).
  cbv zeta in Hst, Hylt, Hypos, Hn0.
  set (n := (2 * k * 10 ^ 7 + one_units) / (2 * one_units)) in *.
  set (y := round_units (n * one_units) (10 ^ 7)) in *.
  rewrite (toFixed_small negative k Hlt). fold n.
  rewrite parseFloat_fixed_point by assumption.
  rewrite to_binary64_finite
    by (fold y; pose proof million_below_overflow; lia).
  fold y. rewrite (toFixed_small _ y Hylt). rewrite Hst.
  f_equal.
  (* the sign is printed again *)
  destruct negative; cbn [andb]; [| reflexivity].
  destruct (Z.ltb_spec 0 k) as [Hkp | Hkz].
  - cbn [andb].
    assert (Hnp : 0 < n).
    { destruct (Z.eq_dec n 0) as [E | ]; [| lia].
      exfalso. apply Hnz. split; [assumption |].
      pose proof one_units_pos as HU.
      pose proof (Z.div_mod (2 * k * 10 ^ 7 + one_units) (2 * one_units) ltac:(lia)) as D.
      pose proof (Z.mod_pos_bound (2 * k * 10 ^ 7 + one_units) (2 * one_units) ltac:(lia)) as B.
      fold n in D. rewrite E in D. lia. }
    specialize (Hypos Hnp).
    destruct (Z.ltb_spec 0 y); [reflexivity | lia].
  - assert (k = 0) by lia. subst k.
    assert (En : n = 0).
    { unfold n. change (2 * 0 * 10 ^ 7 + one_units) with one_units.
      apply Z.div_small. pose proof one_units_pos. lia. }
    assert (Ey : y = 0) by (unfold y; rewrite En; reflexivity).
    rewrite Ey. reflexivity.
Qed.

(** ** [toString] read back *)

Lemma ten_pow_units : 10 ^ unit_exp = one_units * five_pow.
Proof.
  unfold one_units, five_pow. rewrite <- Z.pow_mul_l. reflexivity.
Qed.

Lemma five_pow_pos : 0 < five_pow.
Proof. reflexivity. Qed.

(** The same rounding on a common power of ten. *)
Lemma decimal_units_scaled (s x c : Z) :
  0 <= c -> 0 <= x + c ->
  decimal_units s x = round_units (s * 10 ^ (x + c) * one_units) (10 ^ c).
Proof.
  intros Hc Hxc. unfold decimal_units.
  assert (Hpc : 0 < 10 ^ c) by (apply Z.pow_pos_nonneg; lia).
  destruct (Z.leb_spec 0 x) as [Hx | Hx].
  - apply round_units_ratio; [lia | assumption |].
    rewrite Z.pow_add_r by lia. ring.
  - assert (Hpx : 0 < 10 ^ (- x)) by (apply Z.pow_pos_nonneg; lia).
    apply round_units_ratio; [assumption | assumption |].
    replace c with (x + c + - x) at 1 by lia.
    rewrite (Z.pow_add_r 10 (x + c) (- x)) by lia. ring.
Qed.

Lemma reads_back_exact (k : Z) :
  representable k -> reads_back k (k * five_pow) 0 = true.
Proof.
  intros Hk. unfold reads_back. apply Z.eqb_eq.
  rewrite (decimal_units_scaled _ _ unit_exp) by (unfold unit_exp; simpl; lia).
  replace (Z.of_nat 0 - unit_exp + unit_exp) with 0 by (simpl; lia).
  change (10 ^ 0) with 1. rewrite Z.mul_1_r, <- Z.mul_assoc.
  rewrite (Z.mul_comm five_pow), <- ten_pow_units.
  apply round_units_exact; [assumption |].
  apply Z.pow_pos_nonneg; unfold unit_exp; lia.
Qed.

Lemma shortest_reads_back (e : nat) (k w : Z) (ws : jsstring) :
  0 <= w -> Forall (fun c => is_digit c = true) ws ->
  reads_back k w 0 = true ->
  reads_back k (fst (shortest e k w ws)) (snd (shortest e k w ws)) = true
  /\ 0 <= fst (shortest e k w ws).
Proof.
  intros Hw Hws Hfb. induction e as [| e IH].
  - simpl. auto.
  - cbn [shortest].
    set (lo := decimal_value (firstn (List.length ws - S e) ws)).
    assert (Hlo : 0 <= lo).
    { apply decimal_value_nonneg.
      rewrite <- (firstn_skipn (List.length ws - S e) ws) in Hws.
      apply Forall_app in Hws. apply Hws. }
    destruct (reads_back k lo (S e)) eqn:Elo;
      destruct (reads_back k (lo + 1) (S e)) eqn:Ehi.
    + cbv zeta.
      destruct (2 * (w - lo * 10 ^ Z.of_nat (S e)) ?= 10 ^ Z.of_nat (S e));
        [destruct (Z.even lo) | |];
        cbn [fst snd]; split; (assumption || lia).
    + cbn [fst snd]. auto.
    + cbn [fst snd]. split; [assumption | lia].
    + exact IH.
Qed.

Lemma decimal_number_reads_back (negative : bool) (k s : Z) (e : nat)
    (ds : jsstring) :
  k < overflow_threshold ->
  reads_back k s e = true -> decimal_value ds = s ->
  decimal_number negative ds (Z.of_nat e - unit_exp) = Finite negative k.
Proof.
  intros Hk Hrb Hv. unfold reads_back, decimal_units in Hrb.
  apply Z.eqb_eq in Hrb.
  unfold decimal_number. rewrite Hv.
  destruct (Z.leb_spec 0 (Z.of_nat e - unit_exp));
    rewrite to_binary64_finite; rewrite Hrb; (reflexivity || assumption).
Qed.

Lemma exponent_part_suffix (n : Z) : exponent_part (exponent_suffix n) = n - 1.
Proof.
  unfold exponent_suffix.
  destruct (decimal_digits_spec (Z.abs (n - 1)) (Z.abs_nonneg _))
    as (Hall & Hne & Hv).
  assert (Hs : span is_digit (decimal_digits (Z.abs (n - 1)))
               = (decimal_digits (Z.abs (n - 1)), [])).
  { rewrite <- (app_nil_r (decimal_digits _)) at 1.
    apply span_digits; [assumption | exact I]. }
  destruct (Z.leb_spec 0 (n - 1)) as [Hge | Hlt].
  - change (lit "e" ++ lit "+" ++ decimal_digits (Z.abs (n - 1)))
      with (101%N :: 43%N :: decimal_digits (Z.abs (n - 1))).
    cbn [exponent_part]. change ((101 =? 101)%N) with true.
    cbn [orb]. change ((43 =? 45)%N) with false. change ((43 =? 43)%N) with true.
    cbv iota.
    rewrite Hs.
    destruct (decimal_digits (Z.abs (n - 1))) eqn:E; [contradiction |].
    rewrite Hv. lia.
  - change (lit "e" ++ lit "-" ++ decimal_digits (Z.abs (n - 1)))
      with (101%N :: 45%N :: decimal_digits (Z.abs (n - 1))).
    cbn [exponent_part]. change ((101 =? 101)%N) with true.
    cbn [orb]. change ((45 =? 45)%N) with true.
    cbv iota.
    rewrite Hs.
    destruct (decimal_digits (Z.abs (n - 1))) eqn:E; [contradiction |].
    rewrite Hv. lia.
Qed.

Lemma exponent_suffix_tail (n : Z) : tail_ok (exponent_suffix n).
Proof.
  unfold exponent_suffix. change (lit "e") with [101%N]. cbn [app].
  split; [reflexivity | discriminate].
Qed.

Lemma shortest_digits_spec (k : Z) :
  representable k ->
  exists s e,
    reads_back k s e = true
    /\ Forall (fun c => is_digit c = true) (fst (shortest_digits k))
    /\ fst (shortest_digits k) <> []
    /\ decimal_value (fst (shortest_digits k)) = s
    /\ snd (shortest_digits k)
       = Z.of_nat e - unit_exp + Z.of_nat (List.length (fst (shortest_digits k))).
Proof.
  intros Hk.
  pose proof (representable_nonneg k Hk) as Hk0.
  pose proof five_pow_pos as H5.
  assert (Hw : 0 <= k * five_pow) by nia.
  unfold shortest_digits. cbv zeta.
  set (ws := decimal_digits (k * five_pow)).
  set (e0 := Nat.pred (List.length ws)).
  destruct (shortest_reads_back e0 k (k * five_pow) ws Hw
              (proj1 (decimal_digits_spec _ Hw)) (reads_back_exact k Hk))
    as [Hrb Hs0].
  destruct (shortest e0 k (k * five_pow) ws) as [s0 e1].
  cbn [fst snd] in Hrb, Hs0.
  assert (Hstrip : exists s e,
             (if s0 mod 10 =? 0 then (s0 / 10, S e1) else (s0, e1)) = (s, e)
             /\ reads_back k s e = true /\ 0 <= s).
  { destruct (Z.eqb_spec (s0 mod 10) 0) as [E | NE].
    - exists (s0 / 10), (S e1). repeat split.
      + unfold reads_back in *. rewrite <- Hrb. f_equal.
        rewrite (decimal_units_scaled (s0 / 10) _ unit_exp),
          (decimal_units_scaled s0 _ unit_exp)
          by (unfold unit_exp; lia).
        f_equal. f_equal.
        replace (Z.of_nat (S e1) - unit_exp + unit_exp)
          with (Z.succ (Z.of_nat e1 - unit_exp + unit_exp)) by lia.
        rewrite Z.pow_succ_r by lia.
        pose proof (Z.div_mod s0 10 ltac:(lia)). nia.
      + apply Z.div_pos; lia.
    - exists s0, e1. auto. }
  destruct Hstrip as (s & e & -> & Hrb' & Hs).
  destruct (decimal_digits_spec s Hs) as (Hall & Hne & Hv).
  exists s, e. cbn [fst snd]. auto.
Qed.

Lemma binary64_toString_reads_back (negative : bool) (k : Z) :
  binary64 k -> 0 < k ->
  parseFloat (toString (Finite negative k)) = Finite negative k.
Proof.
  intros [Hk Hfin] Hpos.
  destruct (shortest_digits_spec k Hk) as (s & e & Hrb & Hall & Hne & Hv & Hn).
  unfold toString.
  destruct (Z.eqb_spec k 0) as [| _]; [lia |].
  destruct (shortest_digits k) as [ds n]. cbn [fst snd] in *.
  set (len := Z.of_nat (List.length ds)) in *.
  pose proof (decimal_number_reads_back negative k s e) as Hback.
  assert (Hlen : 0 < len).
  { unfold len. destruct ds; [contradiction | simpl; lia]. }
  cbv zeta. fold len.
  destruct ((len <=? n) && (n <=? 21)) eqn:C1.
  { (* digits followed by zeros *)
    apply andb_true_iff in C1 as [C1 _]. apply Z.leb_le in C1.
    replace (ds ++ zeros (Z.to_nat (n - len)))
      with ((ds ++ zeros (Z.to_nat (n - len))) ++ point_fraction [] ++ [])
      by (cbn [point_fraction app]; apply app_nil_r).
    rewrite parseFloat_decimal;
      [| apply Forall_app; split; [assumption | apply zeros_digits]
       | destruct ds; [contradiction | discriminate]
       | constructor | exact I].
    rewrite app_nil_r, exponent_part_nil. cbn [List.length Z.of_nat].
    rewrite <- (Hback ds Hfin Hrb Hv).
    unfold decimal_number. change (0 <=? 0 - 0) with true. cbv iota.
    replace (Z.of_nat e - unit_exp) with (n - len) by lia.
    destruct (Z.leb_spec 0 (n - len)); [| lia].
    rewrite decimal_value_app, decimal_value_zeros, zeros_length.
    rewrite Z2Nat.id by lia. f_equal. change (10 ^ (0 - 0)) with 1. ring. }
  destruct ((0 <? n) && (n <=? 21)) eqn:C2.
  { (* a point inside the digits *)
    apply andb_true_iff in C2 as [C2 C2']. apply Z.ltb_lt in C2.
    rewrite C2', andb_true_r in C1. apply Z.leb_gt in C1.
    assert (Hcut : (Z.to_nat n < List.length ds)%nat) by (unfold len in C1; lia).
    assert (Hsk : skipn (Z.to_nat n) ds <> []).
    { intros E. apply (f_equal (@List.length _)) in E.
      rewrite length_skipn in E. simpl in E. lia. }
    assert (Hfn : firstn (Z.to_nat n) ds <> []).
    { intros E. apply (f_equal (@List.length _)) in E.
      rewrite length_firstn in E. simpl in E. lia. }
    assert (Hpf : lit "." ++ skipn (Z.to_nat n) ds
                  = point_fraction (skipn (Z.to_nat n) ds) ++ []).
    { rewrite app_nil_r. destruct (skipn (Z.to_nat n) ds);
        [contradiction | reflexivity]. }
    rewrite Hpf.
    pose proof (firstn_skipn (Z.to_nat n) ds) as Hfs.
    rewrite parseFloat_decimal;
      [| rewrite <- Hfs in Hall; apply Forall_app in Hall; apply Hall
       | assumption
       | rewrite <- Hfs in Hall; apply Forall_app in Hall; apply Hall
       | exact I].
    rewrite Hfs, exponent_part_nil, length_skipn.
    rewrite <- (Hback ds Hfin Hrb Hv). f_equal. unfold len in *. lia. }
  destruct ((-6 <? n) && (n <=? 0)) eqn:C3.
  { (* zeros between the point and the digits *)
    apply andb_true_iff in C3 as [_ C3]. apply Z.leb_le in C3.
    assert (Hfp : zeros (Z.to_nat (- n)) ++ ds <> []).
    { destruct (zeros (Z.to_nat (- n))); [assumption | discriminate]. }
    replace (lit "0." ++ zeros (Z.to_nat (- n)) ++ ds)
      with ([48%N] ++ point_fraction (zeros (Z.to_nat (- n)) ++ ds) ++ []).
    2:{ rewrite app_nil_r.
        destruct (zeros (Z.to_nat (- n)) ++ ds); [contradiction | reflexivity]. }
    rewrite parseFloat_decimal;
      [| constructor; [reflexivity | constructor]
       | discriminate
       | apply Forall_app; split; [apply zeros_digits | assumption]
       | exact I].
    rewrite exponent_part_nil, length_app, zeros_length.
    rewrite <- (Hback ds Hfin Hrb Hv).
    unfold decimal_number.
    replace (0 - Z.of_nat (Z.to_nat (- n) + List.length ds))
      with (Z.of_nat e - unit_exp) by (unfold len in *; lia).
    change ([48%N] ++ zeros (Z.to_nat (- n)) ++ ds)
      with (zeros (S (Z.to_nat (- n))) ++ ds).
    rewrite decimal_value_app, decimal_value_zeros. reflexivity. }
  (* exponent notation *)
  pose proof (exponent_suffix_tail n) as Htail.
  pose proof (exponent_part_suffix n) as Hexp.
  destruct ds as [| d rest]; [contradiction |].
  pose proof (Forall_inv Hall) as Hd. pose proof (Forall_inv_tail Hall) as Hrest.
  cbv beta in Hd.
  destruct rest as [| d' rest'].
  - replace ([d] ++ exponent_suffix n)
      with ([d] ++ point_fraction [] ++ exponent_suffix n) by reflexivity.
    rewrite parseFloat_decimal;
      [| constructor; [assumption | constructor] | discriminate
       | constructor | assumption].
    rewrite Hexp, app_nil_r.
    rewrite <- (Hback [d] Hfin Hrb Hv). f_equal.
    unfold len in *. cbn [List.length] in *. lia.
  - replace ([d] ++ lit "." ++ (d' :: rest') ++ exponent_suffix n)
      with ([d] ++ point_fraction (d' :: rest') ++ exponent_suffix n)
      by reflexivity.
    rewrite parseFloat_decimal;
      [| constructor; [assumption | constructor] | discriminate
       | assumption | assumption].
    rewrite Hexp.
    rewrite <- (Hback (d :: d' :: rest') Hfin Hrb Hv). f_equal.
    unfold len in *. cbn [List.length] in *. lia.
Qed.

Lemma span_forall (p : code_unit -> bool) (s : jsstring) :
  Forall (fun c => p c = true) (fst (span p s)).
Proof.
  induction s as [| c s IH]; [constructor |].
  cbn [span]. destruct (p c) eqn:E; [| constructor].
  destruct (span p s) as [a b]. cbn [fst] in *. constructor; assumption.
Qed.

Lemma to_binary64_cases (negative : bool) (num den : Z) :
  0 <= num -> 0 < den ->
  to_binary64 negative num den = Infinity negative
  \/ exists k, to_binary64 negative num den = Finite negative k /\ binary64 k.
Proof.
  intros Hn Hd. unfold to_binary64. cbv zeta.
  pose proof one_units_pos.
  destruct (Z.leb_spec overflow_threshold (round_units (num * one_units) den)).
  - left; reflexivity.
  - right. eexists; split; [reflexivity |]. split; [| assumption].
    apply round_units_representable; nia.
Qed.

(** What [parseFloat] can return: a finite result is a binary64 value. *)
Lemma parseFloat_cases (input : jsstring) :
  parseFloat input = NaN
  \/ (exists b, parseFloat input = Infinity b)
  \/ (exists b k, parseFloat input = Finite b k /\ binary64 k).
Proof.
  unfold parseFloat.
  destruct (strip_sign (trimStart input)) as [negative s].
  destruct (starts_with (lit "Infinity") s); [right; left; eauto |].
  pose proof (span_forall is_digit s) as Hip.
  destruct (span is_digit s) as [ip r1]. cbn [fst] in Hip.
  assert (Hfp : Forall (fun c => is_digit c = true)
                  (fst (match r1 with
                        | c :: r => if (c =? 46)%N then span is_digit r else ([], r1)
                        | [] => ([], r1)
                        end))).
  { destruct r1 as [| c r]; [constructor |].
    destruct (c =? 46)%N; [apply span_forall | constructor]. }
  destruct (match r1 with
            | c :: r => if (c =? 46)%N then span is_digit r else ([], r1)
            | [] => ([], r1)
            end) as [fp r2].
  cbn [fst] in Hfp.
  assert (Hds : Forall (fun c => is_digit c = true) (ip ++ fp))
    by (apply Forall_app; auto).
  destruct (ip ++ fp) as [| c l] eqn:E; [left; reflexivity |].
  pose proof (decimal_value_nonneg _ Hds) as Hv.
  set (e := exponent_part r2 - Z.of_nat (List.length fp)).
  destruct (Z.leb_spec 0 e).
  - destruct (to_binary64_cases negative (decimal_value (c :: l) * 10 ^ e) 1)
      as [-> | (k & -> & Hk)]; [ | lia | eauto | eauto 6].
    pose proof (Z.pow_pos_nonneg 10 e ltac:(lia) ltac:(lia)). nia.
  - destruct (to_binary64_cases negative (decimal_value (c :: l)) (10 ^ (- e)))
      as [-> | (k & -> & Hk)]; [ lia | | eauto | eauto 6].
    apply Z.pow_pos_nonneg; lia.
Qed.

Lemma toString_sign (negative : bool) (k : Z) :
  k <> 0 ->
  toString (Finite negative k)
  = sign_prefix negative ++ toString (Finite false k).
Proof.
  intros Hk. unfold toString.
  destruct (Z.eqb_spec k 0); [contradiction |].
  destruct (shortest_digits k). reflexivity.
Qed.

Lemma toFixed_large (negative : bool) (k : Z) :
  10 ^ 21 * one_units <= k ->
  toFixed (Finite negative k) 7 = toString (Finite negative k).
Proof.
  intros Hk. unfold toFixed.
  destruct (Z.leb_spec (10 ^ 21 * one_units) k); [| lia].
  pose proof one_units_pos.
  assert (0 < k) by nia.
  destruct (Z.ltb_spec 0 k); [| lia].
  rewrite andb_true_r. symmetry. apply toString_sign. lia.
Qed.

(** Formatting twice is formatting once, unless the first result is a
    negative zero. *)
Lemma formatAmount_stable (amount : jsstring) :
  ~ prints_negative_zero (parseFloat amount) ->
  formatAmount (formatAmount amount) = formatAmount amount.
Proof.
  intros Hnz. unfold formatAmount.
  destruct (parseFloat_cases amount) as [E | [[b E] | (b & k & E & Hk)]];
    rewrite E in *.
  - reflexivity.
  - destruct b; reflexivity.
  - destruct (Z_lt_ge_dec k (10 ^ 21 * one_units)) as [Hs | Hl].
    + apply toFixed_reparse_small; [apply Hk | assumption | assumption].
    + pose proof one_units_pos.
      rewrite (toFixed_large b k) by lia.
      rewrite binary64_toString_reads_back by (assumption || nia).
      apply toFixed_large. lia.
Qed.

(** * Amount formatting *)

(** C7 (amended).  For every amount string whose parsed value is not a
    negative number that rounds to zero at seven decimals, formatting is
    idempotent: [formatAmount (formatAmount s) = formatAmount s]. *)
Theorem formatAmount_idempotent (amount : jsstring) :
  ~ prints_negative_zero (parseFloat amount) ->
  formatAmount (formatAmount amount) = formatAmount amount.
Proof. apply formatAmount_stable. Qed.

Lemma formatAmount_idempotent_witness :
  formatAmount (formatAmount (lit "12.5")) = formatAmount (lit "12.5")
  /\ formatAmount (formatAmount (lit "-2.5")) = formatAmount (lit "-2.5").
Proof.
  split; apply formatAmount_idempotent; vm_compute; intuition discriminate.
Defined.

(** C7, as stated, fails on a negative amount that rounds to zero: the
    sign printed the first time is not printed the second time. *)
Lemma formatAmount_negative_zero_changes :
  formatAmount (lit "-0.00000001") = lit "-0.0000000"
  /\ formatAmount (formatAmount (lit "-0.00000001")) = lit "0.0000000"
  /\ formatAmount (formatAmount (lit "-0.00000001"))
     <> formatAmount (lit "-0.00000001").
Proof.
  vm_compute. repeat split; try reflexivity. discriminate.
Qed.

(** * Amount validation *)

Lemma min_balance_value : parseFloat MIN_ACCOUNT_BALANCE = Finite false one_units.
Proof. vm_compute. reflexivity. Qed.

(** The amounts that leave the loop: a parsed value that is [+Infinity] or
    a positive finite number, and at least one unit for create-account. *)
Lemma amount_body_accepts (operationType : Switching.OperationType)
    (amount : jsstring) :
  Switching.amount_body operationType amount = Normal ([], Some amount)
  <-> (parseFloat amount = Infinity false
       \/ exists k, parseFloat amount = Finite false k /\ 0 < k
                    /\ (operationType = Switching.op_createAccount
                        -> one_units <= k)).
Proof.
  unfold Switching.amount_body. cbv zeta. rewrite min_balance_value.
  destruct (parseFloat_cases amount) as [E | [[b E] | (b & k & E & [Hk _])]];
    rewrite E.
  - cbn. split; [discriminate | intros [H | (k & H & _)]; discriminate].
  - destruct b; cbn.
    + split; [discriminate | intros [H | (k & H & _)]; discriminate].
    + destruct operationType; cbn; split; auto.
  - apply representable_nonneg in Hk.
    destruct b; cbn [isNaN orb num_le num_zero signed_units].
    + destruct (Z.leb_spec (- k) 0); [| lia].
      split; [discriminate | intros [H' | (k' & H' & _)]; discriminate].
    + destruct (Z.leb_spec k 0) as [Hle | Hgt].
      * split; [discriminate |].
        intros [H | (k' & H & Hk' & _)]; [discriminate |].
        injection H as <-. lia.
      * destruct operationType; cbn [num_lt signed_units].
        -- split; [| reflexivity]. intros _. right. exists k.
           repeat split; [assumption | discriminate].
        -- destruct (Z.ltb_spec k one_units) as [Hlt | Hge].
           ++ split; [discriminate |].
              intros [H | (k' & H & _ & Hm)]; [discriminate |].
              injection H as <-. specialize (Hm eq_refl). lia.
           ++ split; [| reflexivity]. intros _. right. exists k. auto.
Qed.

(** Every other answer is asked again. *)
Lemma amount_body_total (operationType : Switching.OperationType)
    (amount : jsstring) :
  Switching.amount_body operationType amount = Normal ([], Some amount)
  \/ exists logs, Switching.amount_body operationType amount = Normal (logs, None).
Proof.
  unfold Switching.amount_body. cbv zeta.
  destruct (isNaN (parseFloat amount) || num_le (parseFloat amount) num_zero);
    [right; eauto |].
  destruct operationType; [left; reflexivity |].
  destruct (num_lt (parseFloat amount) (parseFloat MIN_ACCOUNT_BALANCE));
    [right; eauto | left; reflexivity].
Qed.

(** Formatting is idempotent on every amount that passes the validation. *)
Lemma formatAmount_stable_on_valid (operationType : Switching.OperationType)
    (amount : jsstring) :
  Switching.amount_body operationType amount = Normal ([], Some amount) ->
  formatAmount (formatAmount amount) = formatAmount amount.
Proof.
  intros H. apply formatAmount_stable.
  apply amount_body_accepts in H as [E | (k & E & _)]; rewrite E; cbn; tauto.
Qed.

(** C2.  The validator is run on ["Infinity"] and on ["1e400"]: the parsed
    value is [+Infinity], not a finite number, and the amount is accepted,
    for a payment and for a create-account alike. *)
Theorem amount_validator_accepts_infinity :
  parseFloat (lit "Infinity") = Infinity false
  /\ Switching.amount_body Switching.op_payment (lit "Infinity")
     = Normal ([], Some (lit "Infinity"))
  /\ Switching.amount_body Switching.op_createAccount (lit "Infinity")
     = Normal ([], Some (lit "Infinity"))
  /\ parseFloat (lit "1e400") = Infinity false
  /\ Switching.amount_body Switching.op_payment (lit "1e400")
     = Normal ([], Some (lit "1e400"))
  /\ formatAmount (lit "Infinity") = lit "Infinity".
Proof. vm_compute. repeat split; reflexivity. Qed.



(** * Memo validation *)

Lemma is_hex_digit_spec c : is_hex_digit c = true <-> hex_char c.
Proof.
  unfold is_hex_digit, is_digit, hex_char.
  rewrite !orb_true_iff, !andb_true_iff, !N.leb_le. tauto.
Qed.

Lemma forallb_Forall_iff {A} (p : A -> bool) (P : A -> Prop) (l : list A) :
  (forall a, p a = true <-> P a) -> forallb p l = true <-> Forall P l.
Proof.
  intros H. rewrite forallb_forall, Forall_forall.
  split; intros K a Ha; apply H, K, Ha.
Qed.

Lemma all_digits_spec (p : code_unit -> bool) (P : code_unit -> Prop)
    (s : jsstring) :
  (forall c, p c = true <-> P c) ->
  all_digits p s = true <-> s <> [] /\ Forall P s.
Proof.
  intros H. unfold all_digits. destruct s as [| c s].
  - split; [discriminate | intros [K _]; contradiction].
  - rewrite (forallb_Forall_iff p P (c :: s) H).
    split; [intros K; split; [discriminate | assumption] | intros [_ K]; exact K].
Qed.

Lemma isValidHex_spec (str : jsstring) :
  isValidHex str 64 = true <-> List.length str = 64%nat /\ Forall hex_char str.
Proof.
  unfold isValidHex, matches_hex.
  rewrite andb_true_iff, (all_digits_spec _ hex_char str is_hex_digit_spec),
    Z.eqb_eq.
  split.
  - intros [[_ Hall] Hlen]. split; [lia | assumption].
  - intros [Hlen Hall]. repeat split; [| assumption | lia].
    intros ->. discriminate.
Qed.

Lemma matches_digits_spec (s : jsstring) :
  matches_digits s = true <-> s <> [] /\ Forall decimal_char s.
Proof.
  apply all_digits_spec. intros c. apply is_digit_spec.
Qed.

Lemma getMemoInput_step (memoType line : jsstring)
    (rest out : list jsstring) (n : nat) :
  trim memoType = memoType ->
  Switching.includes Switching.memo_types memoType = true ->
  jsstring_eqb memoType (lit "5") = false ->
  Switching.getMemoInput
    {| stdin := memoType :: line :: rest; stdout := out; requests := n |}
  = run_choice (Switching.memo_of_choice memoType (trim line))
      (after_memo rest out n).
Proof.
  intros Htrim Hin H5.
  unfold Switching.getMemoInput, after_memo, memo_menu, run_choice.
  cbv [bind console_log print ask_until askQuestion ret lift throw
       stdin stdout requests prompt_loop].
  rewrite Htrim, Hin. cbn [negb]. rewrite H5.
  destruct (Switching.memo_of_choice memoType (trim line));
    repeat rewrite <- app_assoc; reflexivity.
Qed.

Lemma getMemoInput_run (choice : string) (line : jsstring)
    (rest out : list jsstring) (n : nat) :
  In choice ["1"; "2"; "3"; "4"]%string ->
  Switching.getMemoInput (memo_prompt choice line rest out n)
  = run_choice (Switching.memo_of_choice (lit choice) (trim line))
      (after_memo rest out n).
Proof.
  intros Hc. cbn in Hc.
  destruct Hc as [<- | [<- | [<- | [<- | []]]]];
    apply getMemoInput_step; reflexivity.
Qed.

Lemma run_choice_return (c : Completion (option Memo)) (w : World) (m : option Memo) :
  (exists w', run_choice c w = Return m w') <-> c = Normal m.
Proof.
  destruct c as [a | e]; cbn; split.
  - intros [w' E]. injection E as -> _. reflexivity.
  - intros E. injection E as ->. eauto.
  - intros [w' E]. discriminate.
  - discriminate.
Qed.

Lemma run_choice_raise (c : Completion (option Memo)) (w : World) (e : JsError) :
  (exists w', run_choice c w = Raise e w') <-> c = Throw e.
Proof.
  destruct c as [a | e']; cbn; split.
  - intros [w' E]. discriminate.
  - discriminate.
  - intros [w' E]. injection E as -> _. reflexivity.
  - intros E. injection E as ->. eauto.
Qed.

(** C4.  With the memo value read after the choice of TEXT, the collector
    returns the text memo if and only if the UTF-8 length of the value is
    at most 28 bytes, and raises its error if and only if the length
    exceeds 28; after the choice of HASH or RETURN it returns the memo if
    and only if the value is exactly 64 hexadecimal characters, and raises
    its error otherwise. *)
Theorem memo_text_and_hash_validation (line : jsstring)
    (rest out : list jsstring) (n : nat) :
  let value := trim line in
  let ask choice := Switching.getMemoInput (memo_prompt choice line rest out n) in
  ((exists w, ask "1"%string = Return (Some (Memo_text value)) w)
   <-> getByteLength value <= 28)
  /\ ((exists w, ask "1"%string
                 = Raise (Error (lit "TEXT memo exceeds 28 bytes")) w)
      <-> 28 < getByteLength value)
  /\ ((exists w, ask "3"%string = Return (Some (Memo_hash value)) w)
      <-> List.length value = 64%nat /\ Forall hex_char value)
  /\ ((exists w, ask "3"%string
                 = Raise (Error (lit "HASH memo must be 64 hex characters (32 bytes)")) w)
      <-> ~ (List.length value = 64%nat /\ Forall hex_char value))
  /\ ((exists w, ask "4"%string = Return (Some (Memo_return value)) w)
      <-> List.length value = 64%nat /\ Forall hex_char value)
  /\ ((exists w, ask "4"%string
                 = Raise (Error (lit "RETURN memo must be 64 hex characters (32 bytes)")) w)
      <-> ~ (List.length value = 64%nat /\ Forall hex_char value)).
Proof.
  intros value ask. unfold ask.
  rewrite !getMemoInput_run by (cbn; tauto).
  rewrite !run_choice_return, !run_choice_raise. fold value.
  pose proof (isValidHex_spec value) as Hhex.
  change (Switching.memo_of_choice (lit "1") value)
    with (if 28 <? getByteLength value
          then Throw (Error (lit "TEXT memo exceeds 28 bytes"))
          else Normal (Some (Memo_text value))).
  change (Switching.memo_of_choice (lit "3") value)
    with (if negb (isValidHex value 64)
          then Throw (Error (lit "HASH memo must be 64 hex characters (32 bytes)"))
          else Normal (Some (Memo_hash value))).
  change (Switching.memo_of_choice (lit "4") value)
    with (if negb (isValidHex value 64)
          then Throw (Error (lit "RETURN memo must be 64 hex characters (32 bytes)"))
          else Normal (Some (Memo_return value))).
  destruct (Z.ltb_spec 28 (getByteLength value));
    destruct (isValidHex value 64); cbn [negb];
    repeat split; intros; try discriminate; try lia; try reflexivity;
    try (apply Hhex; reflexivity);
    try (intros K; apply Hhex in K; discriminate);
    try (exfalso; match goal with
                  | H : ~ _ |- _ => apply H, Hhex; reflexivity
                  | H : _ /\ _ |- _ => apply Hhex in H; discriminate
                  end).
Qed.

(** The boundaries of C4 on strings of ASCII letters: 28 bytes pass and 29
    do not; 64 hexadecimal characters pass, 63 and 65 do not. *)
Example memo_length_boundaries :
  Switching.memo_of_choice (lit "1") (repeat 97%N 28)
  = Normal (Some (Memo_text (repeat 97%N 28)))
  /\ Switching.memo_of_choice (lit "1") (repeat 97%N 29)
     = Throw (Error (lit "TEXT memo exceeds 28 bytes"))
  /\ Switching.memo_of_choice (lit "3") (repeat 97%N 64)
     = Normal (Some (Memo_hash (repeat 97%N 64)))
  /\ Switching.memo_of_choice (lit "3") (repeat 97%N 63)
     = Throw (Error (lit "HASH memo must be 64 hex characters (32 bytes)"))
  /\ Switching.memo_of_choice (lit "4") (repeat 97%N 65)
     = Throw (Error (lit "RETURN memo must be 64 hex characters (32 bytes)")).
Proof. vm_compute. repeat split; reflexivity. Qed.

Lemma memo_of_choice_id (value : jsstring) :
  Switching.memo_of_choice (lit "2") value
  = match StringToBigInt value with
    | None => Throw (Error (lit "Cannot convert " ++ value ++ lit " to a BigInt"))
    | Some idValue =>
        if (idValue <? 0) || (Switching.UINT64_MAX <? idValue)
        then Throw id_range_error
        else Normal (Some (Memo_id value))
    end.
Proof. reflexivity. Qed.

(** An error thrown while the transaction is built leaves
    [buildStellarTransaction] as a "Failed to build transaction" error:
    here the ID memo [-1]. *)
Lemma id_memo_out_of_range_aborts :
  exists w',
    Switching.buildStellarTransaction Sample.library Sample.healthy
      TESTNET_CONFIG TESTNET_NETWORK_HASH
      (Sample.terminal [Sample.DESTINATION; lit "10"; lit "2"; lit "-1"])
    = Raise (Error (lit "Failed to build transaction: ID memo must be between 0 and 18446744073709551615")) w'.
Proof.
  eexists. lazy -[next_sequence formatAmount]. reflexivity.
Qed.


(** * Address validation *)

(** C6.  For every string, [isValidStellarAddress] returns a boolean and
    does not throw; the boolean is [true] exactly when
    [Keypair.fromPublicKey] decodes the string, and [false] exactly when it
    throws. *)
Theorem isValidStellarAddress_total (sdk : Library) (address : jsstring) :
  exists b,
    isValidStellarAddress sdk address = Normal b
    /\ (b = true <-> exists keypair, fromPublicKey sdk address = Normal keypair)
    /\ (b = false <-> exists e, fromPublicKey sdk address = Throw e).
Proof.
  unfold isValidStellarAddress, try_catch.
  destruct (fromPublicKey sdk address) as [keypair | e].
  - exists true. repeat split; eauto; try discriminate.
    intros [e E]. discriminate.
  - exists false. repeat split; eauto; try discriminate.
    intros [keypair E]. discriminate.
Qed.

(** * Runs of the builder *)

Lemma bind_return {A B} (c : M A) (k : A -> M B) (w w' : World) (b : B) :
  bind c k w = Return b w' ->
  exists a w1, c w = Return a w1 /\ k a w1 = Return b w'.
Proof.
  unfold bind. destruct (c w) as [a w1 | e w1 | w1]; try discriminate.
  eauto.
Qed.

Lemma catch_return {A} (body : M A) (handler : JsError -> M A)
    (w w' : World) (a : A) :
  (forall e w1, exists e' w2, handler e w1 = Raise e' w2) ->
  catch body handler w = Return a w' -> body w = Return a w'.
Proof.
  intros Hh. unfold catch. destruct (body w) as [a' w1 | e w1 | w1]; auto.
  destruct (Hh e w1) as (e' & w2 & ->). discriminate.
Qed.

Lemma loadAccount_return (server : Horizon) (address : jsstring)
    (w w' : World) (account : Account) :
  loadAccount server address w = Return account w' ->
  horizon_response server (requests w) address = Normal account
  /\ requests w' = S (requests w).
Proof.
  unfold loadAccount.
  destruct (horizon_response server (requests w) address); [| discriminate].
  intros E. injection E as -> <-. auto.
Qed.

Lemma prompt_loop_return {A} (question : jsstring)
    (body : jsstring -> Completion (list jsstring * option A))
    (lines out : list jsstring) (n : nat) (a : A) (w' : World) :
  prompt_loop question body lines out n = Return a w' ->
  requests w' = n
  /\ exists answer logs, body answer = Normal (logs, Some a).
Proof.
  revert out. induction lines as [| answer rest IH]; intros out; cbn [prompt_loop].
  - discriminate.
  - destruct (body (trim answer)) as [[logs [a' |]] | e] eqn:E.
    + intros K. injection K as -> <-. split; [reflexivity | eauto].
    + apply IH.
    + discriminate.
Qed.

Lemma ask_until_return {A} (question : jsstring)
    (body : jsstring -> Completion (list jsstring * option A))
    (w w' : World) (a : A) :
  ask_until question body w = Return a w' ->
  requests w' = requests w
  /\ exists answer logs, body answer = Normal (logs, Some a).
Proof. apply prompt_loop_return. Qed.

Lemma askQuestion_return (question : jsstring) (w w' : World) (a : jsstring) :
  askQuestion question w = Return a w' -> exists answer, a = trim answer.
Proof.
  unfold askQuestion. destruct (stdin w) as [| answer rest]; [discriminate |].
  intros E. injection E as <- _. eauto.
Qed.

Lemma destination_body_some (sdk : Library) (answer destination : jsstring)
    (logs : list jsstring) :
  destination_body sdk answer = Normal (logs, Some destination) ->
  destination = answer /\ isValidStellarAddress sdk destination = Normal true.
Proof.
  unfold destination_body.
  destruct (isValidStellarAddress sdk answer) as [[|] | e] eqn:E;
    cbn [negb]; try discriminate.
  intros K. injection K as _ <-. auto.
Qed.

Lemma amount_body_some (operationType : Switching.OperationType)
    (answer amount : jsstring) (logs : list jsstring) :
  Switching.amount_body operationType answer = Normal (logs, Some amount) ->
  Switching.amount_body operationType amount = Normal ([], Some amount).
Proof.
  intros H.
  destruct (amount_body_total operationType answer) as [E | [logs' E]];
    rewrite E in H; [| discriminate].
  injection H as _ <-. exact E.
Qed.

(** The destination check always returns, [false] on a 404 only. *)
Lemma checkDestinationAccountExists_run (server : Horizon)
    (destination : jsstring) (w : World) :
  Switching.checkDestinationAccountExists server destination w
  = Return (destination_exists
              (horizon_response server (requests w) destination))
      {| stdin := stdin w; stdout := stdout w; requests := S (requests w) |}.
Proof.
  unfold Switching.checkDestinationAccountExists, catch, bind, loadAccount, ret.
  destruct (horizon_response server (requests w) destination) as [a | e];
    cbn [destination_exists]; [reflexivity |].
  destruct (status_is_404 e); reflexivity.
Qed.

Lemma checkAccountActivation_return (server : Horizon) (w w' : World) (u : unit) :
  Switching.checkAccountActivation server w = Return u w' ->
  requests w' = S (requests w).
Proof.
  unfold Switching.checkAccountActivation, catch, bind, loadAccount, ret, throw.
  destruct (horizon_response server (requests w) SOURCE_PUBLIC_KEY) as [a | e].
  - intros E. injection E as _ <-. reflexivity.
  - destruct (status_is_404 e); discriminate.
Qed.

(** A run that returns has loaded the source account with the second
    request, read a valid destination, looked the destination up with the
    third request, read an amount that passes the validation for the
    operation chosen, and returns the record assembled from them. *)
Lemma buildStellarTransaction_return (sdk : Library) (server : Horizon)
    (config : NetworkConfig) (networkHash : list Z) (w w' : World)
    (td : TransactionData) :
  Switching.buildStellarTransaction sdk server config networkHash w
  = Return td w' ->
  exists sourceAccount destination amount memo,
    let operationType :=
      operation_type_for
        (destination_exists
           (horizon_response server (S (S (requests w))) destination)) in
    horizon_response server (S (requests w)) SOURCE_PUBLIC_KEY
    = Normal sourceAccount
    /\ isValidStellarAddress sdk destination = Normal true
    /\ Switching.amount_body operationType amount = Normal ([], Some amount)
    /\ td = assembled sdk config networkHash sourceAccount destination
              operationType amount memo.
Proof.
  intros H. unfold Switching.buildStellarTransaction in H.
  apply catch_return in H; [| intros e w1; unfold throw; eauto].
  apply bind_return in H as (u & w1 & H1 & H).
  apply checkAccountActivation_return in H1.
  apply bind_return in H as (sourceAccount & w2 & H2 & H).
  apply loadAccount_return in H2 as [Hsrc H2]. rewrite H1 in Hsrc.
  apply bind_return in H as (destination & w3 & H3 & H).
  apply ask_until_return in H3 as [H3 (answer & logs & Hd)].
  apply destination_body_some in Hd as [_ Hvalid].
  apply bind_return in H as (destinationExists & w4 & H4 & H).
  rewrite checkDestinationAccountExists_run in H4.
  injection H4 as <- <-.
  assert (Hreq : requests w3 = S (S (requests w))) by congruence.
  rewrite Hreq in H.
  apply bind_return in H as (operationType & w5 & H5 & H).
  assert (Hop : operationType
                = operation_type_for
                    (destination_exists
                       (horizon_response server (S (S (requests w))) destination))).
  { destruct (destination_exists _); cbn [negb] in H5.
    - unfold ret in H5. injection H5 as <- _. reflexivity.
    - unfold bind, console_log, ret in H5. injection H5 as <- _. reflexivity. }
  subst operationType.
  apply bind_return in H as (amount & w6 & H6 & H).
  apply ask_until_return in H6 as [_ (answer' & logs' & Ha)].
  apply amount_body_some in Ha.
  apply bind_return in H as (memo & w7 & _ & H).
  unfold ret in H. injection H as <- _.
  exists sourceAccount, destination, amount, memo. cbv zeta.
  repeat split; assumption.
Qed.

Lemma destination_exists_false (reply : Completion Account) :
  destination_exists reply = false <-> answers_404 reply.
Proof.
  unfold answers_404. destruct reply as [a | e]; cbn [destination_exists].
  - split; [discriminate | intros (e & E & _); discriminate].
  - rewrite negb_false_iff. split.
    + eauto.
    + intros (e' & E & H). injection E as <-. exact H.
Qed.

(** The single operation of the transaction returned by a run, from the
    reply to the third request. *)
Lemma operations_of_run (sdk : Library) (server : Horizon)
    (config : NetworkConfig) (networkHash : list Z) (w w' : World)
    (td : TransactionData) :
  Switching.buildStellarTransaction sdk server config networkHash w
  = Return td w' ->
  tx_operations (transaction td)
  = [if destination_exists
          (horizon_response server (S (S (requests w)))
             (destination (details td)))
     then payment (destination (details td)) native (amount (details td))
     else createAccount (destination (details td)) (amount (details td))].
Proof.
  intros H.
  apply buildStellarTransaction_return in H
    as (sourceAccount & dest & amt & memo & _ & _ & _ & ->).
  cbv zeta.
  change (destination (details (assembled _ _ _ _ dest _ amt memo))) with dest.
  change (amount (details (assembled _ _ _ _ dest _ amt memo)))
    with (formatAmount amt).
  destruct (destination_exists _); destruct memo; reflexivity.
Qed.

(** The sample run in which the destination lookup fails. *)
Lemma flaky_run :
  exists w',
    Switching.buildStellarTransaction Sample.library Sample.flaky
      TESTNET_CONFIG TESTNET_NETWORK_HASH (Sample.terminal Sample.answers)
    = Return Sample.paid w'.
Proof. eexists. lazy -[next_sequence formatAmount]. reflexivity. Qed.

(** ** Payment or create-account *)

(** C3 (amended).  In a run that returns, the operation is create-account
    if and only if the lookup of the destination, the third request to
    Horizon, is answered by an error with status 404, and it is the payment
    in every other case; when that request gets through to the ledger,
    create-account is chosen if and only if the destination is not on the
    ledger. *)
Theorem operation_follows_destination_lookup (sdk : Library) (server : Horizon)
    (config : NetworkConfig) (networkHash : list Z) (w w' : World)
    (td : TransactionData) :
  Switching.buildStellarTransaction sdk server config networkHash w
  = Return td w' ->
  let dest := destination (details td) in
  let amt := amount (details td) in
  let reply := horizon_response server (S (S (requests w))) dest in
  (tx_operations (transaction td) = [createAccount dest amt]
   <-> answers_404 reply)
  /\ (tx_operations (transaction td) = [payment dest native amt]
      <-> ~ answers_404 reply)
  /\ (outage server (S (S (requests w))) = None ->
      (tx_operations (transaction td) = [createAccount dest amt]
       <-> ledger server dest = None)).
Proof.
  intros H. cbv zeta. rewrite (operations_of_run _ _ _ _ _ _ _ H).
  set (dest := destination (details td)).
  set (amt := amount (details td)).
  set (reply := horizon_response server (S (S (requests w))) dest).
  pose proof (destination_exists_false reply) as Hf.
  assert (Hc : [if destination_exists reply
                then payment dest native amt else createAccount dest amt]
               = [createAccount dest amt] <-> answers_404 reply).
  { destruct (destination_exists reply); split;
      try discriminate; try reflexivity.
    - intros K. apply Hf in K. discriminate.
    - intros _. apply Hf. reflexivity. }
  assert (Hp : [if destination_exists reply
                then payment dest native amt else createAccount dest amt]
               = [payment dest native amt] <-> ~ answers_404 reply).
  { destruct (destination_exists reply); split;
      try discriminate; try reflexivity.
    - intros _ K. apply Hf in K. discriminate.
    - intros K. exfalso. apply K, Hf. reflexivity. }
  repeat split; try apply Hc; try apply Hp.
  - intros K. apply Hc in K. destruct K as (e & E & H404).
    unfold reply, horizon_response in E.
    match goal with Ho : outage _ _ = None |- _ => rewrite Ho in E end.
    destruct (ledger server dest); [discriminate | reflexivity].
  - intros K. apply Hc. unfold reply, horizon_response.
    match goal with Ho : outage _ _ = None |- _ => rewrite Ho end.
    rewrite K. exists not_found. split; reflexivity.
Qed.

Lemma operation_follows_destination_lookup_witness :
  ledger Sample.healthy Sample.DESTINATION = None
  /\ (tx_operations (transaction Sample.created)
      = [createAccount Sample.DESTINATION (formatAmount (lit "10"))]
      <-> ledger Sample.healthy Sample.DESTINATION = None).
Proof.
  split; [reflexivity |].
  assert (E : exists w',
             Switching.buildStellarTransaction Sample.library Sample.healthy
               TESTNET_CONFIG TESTNET_NETWORK_HASH
               (Sample.terminal Sample.answers)
             = Return Sample.created w')
    by (eexists; lazy -[next_sequence formatAmount]; reflexivity).
  destruct E as [w' E].
  exact (proj2 (proj2 (operation_follows_destination_lookup Sample.library
           Sample.healthy TESTNET_CONFIG TESTNET_NETWORK_HASH
           (Sample.terminal Sample.answers) w' Sample.created E)) eq_refl).
Defined.

(** C3, as stated, fails: the destination is not on the ledger, the lookup
    fails with a network error, and the run returns a payment. *)
Lemma missing_destination_gets_payment :
  (exists w',
     Switching.buildStellarTransaction Sample.library Sample.flaky
       TESTNET_CONFIG TESTNET_NETWORK_HASH (Sample.terminal Sample.answers)
     = Return Sample.paid w')
  /\ ledger Sample.flaky (destination (details Sample.paid)) = None
  /\ tx_operations (transaction Sample.paid)
     = [payment Sample.DESTINATION native (formatAmount (lit "10"))]
  /\ formatAmount (lit "10") = lit "10.0000000".
Proof.
  split; [exact flaky_run |].
  split; [reflexivity |]. split; [reflexivity |].
  vm_compute. reflexivity.
Qed.

(** C8.  When the lookup of the destination fails with an error that is
    not a 404, [checkDestinationAccountExists] returns [true] and the run
    returns a payment, whatever the ledger holds. *)
Theorem failed_destination_check_builds_payment (sdk : Library)
    (server : Horizon) (config : NetworkConfig) (networkHash : list Z)
    (w w' : World) (td : TransactionData) (e : JsError) :
  Switching.buildStellarTransaction sdk server config networkHash w
  = Return td w' ->
  horizon_response server (S (S (requests w))) (destination (details td))
  = Throw e ->
  status_is_404 e = false ->
  (forall w3, requests w3 = S (S (requests w)) ->
     exists w4,
       Switching.checkDestinationAccountExists server
         (destination (details td)) w3 = Return true w4)
  /\ tx_operations (transaction td)
     = [payment (destination (details td)) native (amount (details td))].
Proof.
  intros H Hreply Hstatus. split.
  - intros w3 Hw3. rewrite checkDestinationAccountExists_run, Hw3, Hreply.
    cbn [destination_exists]. rewrite Hstatus. eauto.
  - rewrite (operations_of_run _ _ _ _ _ _ _ H), Hreply.
    cbn [destination_exists]. rewrite Hstatus. reflexivity.
Qed.

Lemma failed_destination_check_builds_payment_witness :
  ledger Sample.flaky Sample.DESTINATION = None
  /\ (forall w3, requests w3 = 2%nat ->
        exists w4,
          Switching.checkDestinationAccountExists Sample.flaky
            Sample.DESTINATION w3 = Return true w4)
  /\ tx_operations (transaction Sample.paid)
     = [payment Sample.DESTINATION native (formatAmount (lit "10"))].
Proof.
  split; [reflexivity |].
  assert (E : exists w',
             Switching.buildStellarTransaction Sample.library Sample.flaky
               TESTNET_CONFIG TESTNET_NETWORK_HASH
               (Sample.terminal Sample.answers)
             = Return Sample.paid w')
    by (eexists; lazy -[next_sequence formatAmount]; reflexivity).
  destruct E as [w' E].
  exact (failed_destination_check_builds_payment Sample.library Sample.flaky
           TESTNET_CONFIG TESTNET_NETWORK_HASH (Sample.terminal Sample.answers)
           w' Sample.paid Sample.network_error E eq_refl eq_refl).
Defined.

(** ** Sequence number *)


(** ** Decimal digits, digit by digit *)










Lemma decimal_value_bound (ds : jsstring) :
  Forall (fun c => is_digit c = true) ds ->
  decimal_value ds < 10 ^ Z.of_nat (List.length ds).
Proof.
  induction ds as [| c ds IH] using rev_ind; intros H.
  - reflexivity.
  - apply Forall_app in H as [Ha Hc]. inversion Hc; subst.
    rewrite decimal_value_app, decimal_value_single, length_app.
    pose proof (digit_value_range c H1). specialize (IH Ha).
    cbn [List.length]. change (Z.of_nat 1) with 1. rewrite Z.pow_1_r.
    replace (Z.of_nat (List.length ds + 1)) with (Z.succ (Z.of_nat (List.length ds))) by lia.
    rewrite Z.pow_succ_r by lia. lia.
Qed.


(** ** Integers below [2^53] *)










(** ** [parseInt] on decimal digits *)




(** C1.  The sequence detail is evaluated for two source accounts, with
    the sequences 9007199254740992 (2^53, the first sequence of an account
    created in ledger 2097152) and 214748364800000000 (ledger 50000000):
    it is N itself and not N+1, because N+1 is not a binary64 value and
    the sum rounds back to N. *)
Theorem sequence_detail_loses_precision :
  next_sequence {| account_id := SOURCE_PUBLIC_KEY;
                   sequence := lit "9007199254740992" |}
  = lit "9007199254740992"
  /\ next_sequence {| account_id := SOURCE_PUBLIC_KEY;
                      sequence := lit "214748364800000000" |}
     = lit "214748364800000000".
Proof. vm_compute. split; reflexivity. Qed.

(** ** Memo type from the shape of the input *)





(** The shapes of C10 on examples: digits up to 19 characters give an ID
    memo, 20 digits and a 29-byte text give a TEXT memo. *)
Example memo_shapes :
  ShapeInference.memo_for (ShapeInference.memo_or_null (repeat 57%N 19))
  = Some (Memo_id (repeat 57%N 19))
  /\ ShapeInference.memo_for (ShapeInference.memo_or_null (repeat 57%N 20))
     = Some (Memo_text (repeat 57%N 20))
  /\ ShapeInference.memo_for (ShapeInference.memo_or_null (repeat 97%N 29))
     = Some (Memo_text (repeat 97%N 29))
  /\ ShapeInference.memo_for (ShapeInference.memo_or_null (lit "12a"))
     = Some (Memo_text (lit "12a")).
Proof. vm_compute. repeat split; reflexivity. Qed.

(** * Further properties of the helpers *)

Lemma jsstring_eqb_eq (a b : jsstring) : jsstring_eqb a b = true <-> a = b.
Proof.
  revert b. induction a as [| x a IH]; intros [| y b]; cbn [jsstring_eqb];
    try (split; [discriminate | discriminate]); try tauto.
  rewrite andb_true_iff, N.eqb_eq, IH. split.
  - intros [-> ->]. reflexivity.
  - intros E. injection E as -> ->. auto.
Qed.

Lemma jsstring_eqb_refl (a : jsstring) : jsstring_eqb a a = true.
Proof. apply jsstring_eqb_eq. reflexivity. Qed.

(** ** [formatAmount] *)

(** X1.  For an amount whose parsed value is a non-negative finite number
    below [1e21], [formatAmount] gives digits, a point and exactly seven
    digits, and the number of stroops they denote is the parsed value times
    [10^7] rounded to the nearest integer, halves upwards. *)
Theorem formatAmount_seven_decimals (amount : jsstring) (k : Z) :
  parseFloat amount = Finite false k ->
  0 <= k < 10 ^ 21 * one_units ->
  exists ip fp n,
    formatAmount amount = ip ++ lit "." ++ fp
    /\ ip <> []
    /\ List.length fp = 7%nat
    /\ Forall decimal_char (ip ++ fp)
    /\ decimal_value (ip ++ fp) = n
    /\ 2 * n * one_units <= 2 * k * 10 ^ 7 + one_units < 2 * (n + 1) * one_units.
Proof.
  intros E [Hk0 Hk].
  pose proof one_units_pos as HU.
  set (n := (2 * k * 10 ^ 7 + one_units) / (2 * one_units)).
  assert (Hn : 0 <= n) by (apply Z.div_pos; lia).
  destruct (padded_spec n 7 Hn) as (Hd & Hl & Hv).
  set (pd := padded n 7) in *.
  exists (firstn (List.length pd - 7) pd), (skipn (List.length pd - 7) pd), n.
  assert (Hsplit : firstn (List.length pd - 7) pd ++ skipn (List.length pd - 7) pd
                   = pd) by apply firstn_skipn.
  repeat split.
  - unfold formatAmount. cbv zeta. rewrite E, toFixed_small by exact Hk.
    cbn [andb sign_prefix app]. fold n. apply fixed_point_split.
  - intros K. apply (f_equal (@List.length _)) in K.
    rewrite length_firstn in K. cbn [List.length] in K. lia.
  - rewrite length_skipn. lia.
  - rewrite Hsplit. eapply Forall_impl; [| exact Hd].
    intros c Hc. apply is_digit_spec. exact Hc.
  - rewrite Hsplit. exact Hv.
  - pose proof (Z.mul_div_le (2 * k * 10 ^ 7 + one_units) (2 * one_units)).
    fold n in H. lia.
  - pose proof (Z.mul_succ_div_gt (2 * k * 10 ^ 7 + one_units) (2 * one_units)).
    fold n in H. lia.
Qed.

Lemma formatAmount_seven_decimals_witness :
  exists ip fp n,
    formatAmount (lit "12.5") = ip ++ lit "." ++ fp
    /\ ip <> []
    /\ List.length fp = 7%nat
    /\ Forall decimal_char (ip ++ fp)
    /\ decimal_value (ip ++ fp) = n
    /\ 2 * n * one_units
       <= 2 * (25 * 2 ^ 1073) * 10 ^ 7 + one_units
       < 2 * (n + 1) * one_units.
Proof.
  apply (formatAmount_seven_decimals (lit "12.5") (25 * 2 ^ 1073)).
  - vm_compute. reflexivity.
  - vm_compute. split; [discriminate | reflexivity].
Defined.

(** ** [isValidHex] and [getByteLength] *)

(** X2.  [isValidHex(str, expectedLength)] holds exactly when [str] has
    [expectedLength] code units, at least one, all of them hexadecimal
    digits; it never holds for an expected length of zero or less. *)
Theorem isValidHex_characterised (str : jsstring) (expectedLength : Z) :
  (isValidHex str expectedLength = true
   <-> Z.of_nat (List.length str) = expectedLength
       /\ str <> [] /\ Forall hex_char str)
  /\ (expectedLength <= 0 -> isValidHex str expectedLength = false).
Proof.
  assert (H : isValidHex str expectedLength = true
              <-> Z.of_nat (List.length str) = expectedLength
                  /\ str <> [] /\ Forall hex_char str).
  { unfold isValidHex, matches_hex.
    rewrite andb_true_iff, Z.eqb_eq,
      (all_digits_spec is_hex_digit hex_char str is_hex_digit_spec).
    tauto. }
  split; [exact H |].
  intros Hle. apply not_true_is_false. intros E.
  apply H in E as (Hl & Hne & _). destruct str; [congruence |].
  cbn [List.length] in Hl. lia.
Qed.

Lemma utf8_length_bounds_aux (n : nat) :
  forall s, (List.length s <= n)%nat ->
            Z.of_nat (List.length s) <= utf8_length s <= 3 * Z.of_nat (List.length s).
Proof.
  induction n as [| n IH]; intros s Hs.
  - destruct s; [cbn; lia | cbn in Hs; lia].
  - destruct s as [| c r]; [cbn; lia |].
    cbn [List.length] in Hs.
    assert (Hr : (List.length r <= n)%nat) by lia.
    pose proof (IH r Hr) as IHr.
    cbn [utf8_length List.length].
    destruct (c <? 128)%N; [lia |].
    destruct (c <? 2048)%N; [lia |].
    destruct (is_high_surrogate c); [| lia].
    destruct r as [| d r']; [cbn [List.length]; lia |].
    destruct (is_low_surrogate d); [| lia].
    cbn [List.length] in *.
    assert (Hr' : (List.length r' <= n)%nat) by lia.
    pose proof (IH r' Hr'). lia.
Qed.

Lemma utf8_length_bounds (s : jsstring) :
  Z.of_nat (List.length s) <= getByteLength s <= 3 * Z.of_nat (List.length s).
Proof. apply (utf8_length_bounds_aux (List.length s)). lia. Qed.

(** X3.  The byte length that [getByteLength] gives lies between the number
    of UTF-16 code units and three times that number; so a TEXT memo of at
    most 9 code units is accepted whatever its characters, and one of more
    than 28 code units is refused. *)
Theorem text_memo_by_code_units (memoValue : jsstring) :
  Z.of_nat (List.length memoValue) <= getByteLength memoValue
                                  <= 3 * Z.of_nat (List.length memoValue)
  /\ ((List.length memoValue <= 9)%nat ->
      Switching.memo_of_choice (lit "1") memoValue
      = Normal (Some (Memo_text memoValue)))
  /\ ((28 < List.length memoValue)%nat ->
      Switching.memo_of_choice (lit "1") memoValue
      = Throw (Error (lit "TEXT memo exceeds 28 bytes"))).
Proof.
  pose proof (utf8_length_bounds memoValue) as H.
  split; [exact H |].
  unfold Switching.memo_of_choice. cbn [jsstring_eqb lit].
  change (jsstring_eqb (lit "1") (lit "1")) with true. cbv iota.
  split; intros Hl.
  - destruct (Z.ltb_spec 28 (getByteLength memoValue)); [lia | reflexivity].
  - destruct (Z.ltb_spec 28 (getByteLength memoValue)); [reflexivity | lia].
Qed.

(** * Further properties of the prompt loops *)

Lemma prompt_loop_skip {A} (question : jsstring)
    (body : jsstring -> Completion (list jsstring * option A))
    (logs_of : jsstring -> list jsstring) (bad lines : list jsstring) (n : nat) :
  Forall (fun a => body (trim a) = Normal (logs_of a, None)) bad ->
  forall out,
    prompt_loop question body (bad ++ lines) out n
    = prompt_loop question body lines (out ++ asked_again question logs_of bad) n.
Proof.
  induction 1 as [| a bad Ha _ IH]; intros out.
  - cbn. rewrite app_nil_r. reflexivity.
  - cbn [app prompt_loop asked_again flat_map]. rewrite Ha, IH.
    unfold asked_again. rewrite <- app_assoc. reflexivity.
Qed.

Lemma prompt_loop_never_raises {A} (question : jsstring)
    (body : jsstring -> Completion (list jsstring * option A))
    (lines : list jsstring) (n : nat) (e : JsError) (w' : World) :
  (forall a e', body a <> Throw e') ->
  forall out, prompt_loop question body lines out n <> Raise e w'.
Proof.
  intros Hb. induction lines as [| a rest IH]; intros out; cbn [prompt_loop].
  - discriminate.
  - destruct (body (trim a)) as [[logs [x |]] | e'] eqn:E.
    + discriminate.
    + apply IH.
    + exfalso. exact (Hb _ _ E).
Qed.

(** X4.  The destination loop asks again after every answer that is not a
    valid address, writing ["Invalid address"] once for each, and leaves
    with the first valid answer, trimmed; it reads nothing after it and
    sends no request. *)
Theorem destination_loop_skips_invalid (sdk : Library)
    (bad : list jsstring) (good : jsstring) (rest out : list jsstring) (n : nat) :
  Forall (fun a => isValidStellarAddress sdk (trim a) = Normal false) bad ->
  isValidStellarAddress sdk (trim good) = Normal true ->
  ask_until (lit "Destination address: ") (destination_body sdk)
    {| stdin := bad ++ good :: rest; stdout := out; requests := n |}
  = Return (trim good)
      {| stdin := rest;
         stdout := out
                   ++ asked_again (lit "Destination address: ")
                        (fun _ => [lit "Invalid address"]) bad
                   ++ [lit "Destination address: "];
         requests := n |}.
Proof.
  intros Hbad Hgood. unfold ask_until. cbn [stdin stdout requests].
  rewrite (prompt_loop_skip _ _ (fun _ => [lit "Invalid address"])).
  - cbn [prompt_loop]. unfold destination_body. rewrite Hgood. cbn [negb].
    rewrite <- app_assoc. reflexivity.
  - eapply Forall_impl; [| exact Hbad]. intros a Ha. cbn beta in *.
    unfold destination_body. rewrite Ha. reflexivity.
Qed.

Lemma destination_loop_skips_invalid_witness :
  ask_until (lit "Destination address: ") (destination_body Sample.library)
    {| stdin := [lit "GABC"; lit " "; Sample.DESTINATION; lit "10"];
       stdout := []; requests := 2 |}
  = Return (trim Sample.DESTINATION)
      {| stdin := [lit "10"];
         stdout := [] ++ asked_again (lit "Destination address: ")
                           (fun _ => [lit "Invalid address"]) [lit "GABC"; lit " "]
                   ++ [lit "Destination address: "];
         requests := 2 |}.
Proof.
  apply (destination_loop_skips_invalid Sample.library [lit "GABC"; lit " "]
           Sample.DESTINATION [lit "10"] [] 2).
  - repeat constructor.
  - reflexivity.
Defined.

(** X5.  For a create-account, the amount loop answers ["Create Account
    requires minimum 1.0000000 XLM"] exactly to the amounts whose parsed
    value is a positive finite number below 1, and asks again; for a
    payment it never gives that answer. *)
Theorem create_account_minimum_message (amount : jsstring) :
  (Switching.amount_body Switching.op_createAccount amount
   = Normal ([lit "Create Account requires minimum 1.0000000 XLM"], None)
   <-> exists k, parseFloat amount = Finite false k /\ 0 < k < one_units)
  /\ Switching.amount_body Switching.op_payment amount
     <> Normal ([lit "Create Account requires minimum 1.0000000 XLM"], None).
Proof.
  unfold Switching.amount_body. cbv zeta. rewrite min_balance_value.
  change (lit "Create Account requires minimum " ++ MIN_ACCOUNT_BALANCE
          ++ lit " XLM")
    with (lit "Create Account requires minimum 1.0000000 XLM").
  split.
  - destruct (parseFloat_cases amount) as [E | [[b E] | (b & k & E & [Hk _])]];
      rewrite E.
    + cbn. split; [discriminate | intros (k & K & _); discriminate].
    + destruct b; cbn; (split; [discriminate | intros (k & K & _); discriminate]).
    + apply representable_nonneg in Hk.
      destruct b; cbn [isNaN orb num_le num_zero signed_units num_lt].
      * destruct (Z.leb_spec (- k) 0); [| lia].
        split; [discriminate | intros (k' & K & _); discriminate].
      * destruct (Z.leb_spec k 0).
        -- split; [discriminate |]. intros (k' & K & Hk' & _).
           injection K as <-. lia.
        -- destruct (Z.ltb_spec k one_units).
           ++ split; [| reflexivity]. intros _. exists k. split; [reflexivity | lia].
           ++ split; [discriminate |]. intros (k' & K & Hk').
              injection K as <-. lia.
  - destruct (isNaN (parseFloat amount) || num_le (parseFloat amount) num_zero);
      discriminate.
Qed.

(** * Further properties of the runs of the builder *)

Lemma console_log_return (line : jsstring) (w w' : World) (u : unit) :
  console_log line w = Return u w' -> requests w' = requests w.
Proof. unfold console_log. intros E. injection E as _ <-. reflexivity. Qed.

Lemma askQuestion_requests (question : jsstring) (w w' : World) (a : jsstring) :
  askQuestion question w = Return a w' -> requests w' = requests w.
Proof.
  unfold askQuestion. destruct (stdin w); [discriminate |].
  intros E. injection E as _ <-. reflexivity.
Qed.

Lemma memo_of_choice_valid (memoType memoValue : jsstring) (m : option Memo) :
  Switching.memo_of_choice memoType memoValue = Normal m -> valid_memo m.
Proof.
  unfold Switching.memo_of_choice.
  destruct (jsstring_eqb memoType (lit "1")).
  { destruct (Z.ltb_spec 28 (getByteLength memoValue)); [discriminate |].
    intros E. injection E as <-. exact H. }
  destruct (jsstring_eqb memoType (lit "2")).
  { destruct (StringToBigInt memoValue) as [idValue |] eqn:Eid; [| discriminate].
    destruct (Z.ltb_spec idValue 0); [discriminate |].
    destruct (Z.ltb_spec Switching.UINT64_MAX idValue); [discriminate |].
    cbn [orb]. intros E. injection E as <-. exists idValue. split; [exact Eid | lia]. }
  destruct (jsstring_eqb memoType (lit "3")).
  { destruct (isValidHex memoValue 64) eqn:Eh; [| discriminate].
    cbn [negb]. intros E. injection E as <-. apply isValidHex_spec. exact Eh. }
  destruct (jsstring_eqb memoType (lit "4")).
  { destruct (isValidHex memoValue 64) eqn:Eh; [| discriminate].
    cbn [negb]. intros E. injection E as <-. apply isValidHex_spec. exact Eh. }
  intros E. injection E as <-. exact I.
Qed.

(** A memo that [getMemoInput] returns passed the validation of its type,
    and no request was sent for it. *)
Lemma getMemoInput_return (w w' : World) (m : option Memo) :
  Switching.getMemoInput w = Return m w' ->
  requests w' = requests w /\ valid_memo m.
Proof.
  unfold Switching.getMemoInput. intros H.
  do 6 (let u := fresh "u" in
        let w1 := fresh "w" in
        let H1 := fresh "H" in
        apply bind_return in H as (u & w1 & H1 & H);
        apply console_log_return in H1; rewrite <- H1; clear H1).
  apply bind_return in H as (memoType & wt & H2 & H).
  apply ask_until_return in H2 as [H2 _]. rewrite <- H2. clear H2.
  destruct (jsstring_eqb memoType (lit "5")).
  - unfold ret in H. injection H as <- <-. split; [reflexivity | exact I].
  - apply bind_return in H as (memoValue & wv & H3 & H).
    apply askQuestion_requests in H3. rewrite <- H3.
    unfold lift in H.
    destruct (Switching.memo_of_choice memoType memoValue) as [m' | e] eqn:E.
    + unfold ret in H. injection H as <- <-. split; [reflexivity |].
      eapply memo_of_choice_valid. exact E.
    + discriminate.
Qed.

(** What a run of the switching variant that returns has done, in full. *)
Lemma buildStellarTransaction_inversion (sdk : Library) (server : Horizon)
    (config : NetworkConfig) (networkHash : list Z) (w w' : World)
    (td : TransactionData) :
  Switching.buildStellarTransaction sdk server config networkHash w
  = Return td w' ->
  exists sourceAccount destination amount memo,
    let operationType :=
      operation_type_for
        (destination_exists
           (horizon_response server (S (S (requests w))) destination)) in
    horizon_response server (S (requests w)) SOURCE_PUBLIC_KEY
    = Normal sourceAccount
    /\ isValidStellarAddress sdk destination = Normal true
    /\ Switching.amount_body operationType amount = Normal ([], Some amount)
    /\ valid_memo memo
    /\ requests w' = S (S (S (requests w)))
    /\ td = assembled sdk config networkHash sourceAccount destination
              operationType amount memo.
Proof.
  intros H. unfold Switching.buildStellarTransaction in H.
  apply catch_return in H; [| intros e w1; unfold throw; eauto].
  apply bind_return in H as (u & w1 & H1 & H).
  apply checkAccountActivation_return in H1.
  apply bind_return in H as (sourceAccount & w2 & H2 & H).
  apply loadAccount_return in H2 as [Hsrc H2]. rewrite H1 in Hsrc.
  apply bind_return in H as (destination & w3 & H3 & H).
  apply ask_until_return in H3 as [H3 (answer & logs & Hd)].
  apply destination_body_some in Hd as [_ Hvalid].
  apply bind_return in H as (destinationExists & w4 & H4 & H).
  rewrite checkDestinationAccountExists_run in H4.
  injection H4 as <- <-.
  assert (Hreq : requests w3 = S (S (requests w))) by congruence.
  rewrite Hreq in H.
  apply bind_return in H as (operationType & w5 & H5 & H).
  assert (Hop : operationType
                = operation_type_for
                    (destination_exists
                       (horizon_response server (S (S (requests w))) destination))
                /\ requests w5 = S (S (S (requests w)))).
  { destruct (destination_exists _); cbn [negb] in H5.
    - unfold ret in H5. injection H5 as <- <-. auto.
    - unfold bind, console_log, ret in H5. injection H5 as <- <-. auto. }
  destruct Hop as [-> Hw5].
  apply bind_return in H as (amount & w6 & H6 & H).
  apply ask_until_return in H6 as [Hw6 (answer' & logs' & Ha)].
  apply amount_body_some in Ha.
  apply bind_return in H as (memo & w7 & H7 & H).
  apply getMemoInput_return in H7 as [Hw7 Hmemo].
  unfold ret in H. injection H as <- <-.
  exists sourceAccount, destination, amount, memo. cbv zeta.
  repeat split; try assumption. congruence.
Qed.

(** X6.  A run of the switching variant that returns has sent exactly three
    requests to Horizon.  The transaction has the source account that the
    second request loaded, fee ["100"], time bound 0, the passphrase of the
    configuration and exactly one operation, on a destination that the
    address validation accepts and for the formatted amount of the details;
    that amount was formatted from an answer that the amount validation
    accepts, for a create-account one of parsed value at least 1. *)
Theorem returned_transaction_is_well_formed (sdk : Library) (server : Horizon)
    (config : NetworkConfig) (networkHash : list Z) (w w' : World)
    (td : TransactionData) :
  Switching.buildStellarTransaction sdk server config networkHash w
  = Return td w' ->
  let tx := transaction td in
  let dest := destination (details td) in
  let amt := amount (details td) in
  requests w' = S (S (S (requests w)))
  /\ horizon_response server (S (requests w)) SOURCE_PUBLIC_KEY
     = Normal (tx_source tx)
  /\ tx_fee tx = lit "100"
  /\ tx_timeout tx = Some 0
  /\ tx_networkPassphrase tx = passphrase config
  /\ Common.networkHash td = networkHash
  /\ xdr td = toEnvelopeXDR sdk tx
  /\ source (details td) = SOURCE_PUBLIC_KEY
  /\ fee (details td) = lit "0.00001"
  /\ isValidStellarAddress sdk dest = Normal true
  /\ (tx_operations tx = [payment dest native amt]
      \/ tx_operations tx = [createAccount dest amt])
  /\ exists answer,
       amt = formatAmount answer
       /\ (parseFloat answer = Infinity false
           \/ exists k, parseFloat answer = Finite false k /\ 0 < k
                        /\ (tx_operations tx = [createAccount dest amt]
                            -> one_units <= k)).
Proof.
  intros H.
  apply buildStellarTransaction_inversion in H
    as (sourceAccount & dest & amt & memo & Hsrc & Hvalid & Hamt & _ & Hreq & ->).
  cbv zeta.
  set (operationType := operation_type_for _) in *.
  assert (Hops : tx_operations
                   (transaction (assembled sdk config networkHash sourceAccount
                                   dest operationType amt memo))
                 = [Switching.operation_for operationType dest amt])
    by (destruct memo; reflexivity).
  assert (Hsource : tx_source
                      (transaction (assembled sdk config networkHash sourceAccount
                                      dest operationType amt memo))
                    = sourceAccount)
    by (destruct memo; reflexivity).
  rewrite Hops, Hsource.
  change (destination (details (assembled sdk config networkHash sourceAccount
                                  dest operationType amt memo))) with dest.
  change (amount (details (assembled sdk config networkHash sourceAccount
                             dest operationType amt memo)))
    with (formatAmount amt).
  repeat split; try assumption; try (destruct memo; reflexivity).
  - destruct operationType; [left | right]; reflexivity.
  - exists amt. split; [reflexivity |].
    apply amount_body_accepts in Hamt as [E | (k & E & Hk & Hmin)];
      [left; exact E | right].
    exists k. repeat split; try assumption.
    intros K. apply Hmin. destruct operationType; [discriminate | reflexivity].
Qed.

Lemma returned_transaction_is_well_formed_witness :
  exists w',
    requests w' = 3%nat
    /\ tx_fee (transaction Sample.created) = lit "100"
    /\ tx_timeout (transaction Sample.created) = Some 0
    /\ isValidStellarAddress Sample.library
         (destination (details Sample.created)) = Normal true.
Proof.
  assert (E : exists w',
             Switching.buildStellarTransaction Sample.library Sample.healthy
               TESTNET_CONFIG TESTNET_NETWORK_HASH
               (Sample.terminal Sample.answers)
             = Return Sample.created w')
    by (eexists; lazy -[next_sequence formatAmount]; reflexivity).
  destruct E as [w' E]. exists w'.
  pose proof (returned_transaction_is_well_formed Sample.library Sample.healthy
                TESTNET_CONFIG TESTNET_NETWORK_HASH
                (Sample.terminal Sample.answers) w' Sample.created E) as H.
  cbv zeta in H.
  destruct H as (H1 & _ & H3 & H4 & _ & _ & _ & _ & _ & H10 & _).
  repeat split; assumption.
Defined.

(** X7.  In a run of the switching variant that returns, the memo of the
    transaction passed the validation of its type (a text of at most 28
    bytes, an id that reads an integer from 0 to 18446744073709551615, a
    hash or return value of 64 hexadecimal characters), and the memo of
    the details is the value of that memo, absent when there is none. *)
Theorem returned_memo_is_validated (sdk : Library) (server : Horizon)
    (config : NetworkConfig) (networkHash : list Z) (w w' : World)
    (td : TransactionData) :
  Switching.buildStellarTransaction sdk server config networkHash w
  = Return td w' ->
  valid_memo (tx_memo (transaction td))
  /\ memo (details td) = option_map memo_value (tx_memo (transaction td)).
Proof.
  intros H.
  apply buildStellarTransaction_inversion in H
    as (sourceAccount & dest & amt & m & _ & _ & _ & Hm & _ & ->).
  cbv zeta. destruct m; split; try exact Hm; reflexivity.
Qed.

Lemma returned_memo_is_validated_witness :
  valid_memo (tx_memo (transaction Scenario.created_with_memo))
  /\ memo (details Scenario.created_with_memo)
     = option_map memo_value (tx_memo (transaction Scenario.created_with_memo)).
Proof.
  assert (E : exists w',
             Switching.buildStellarTransaction Sample.library Sample.healthy
               TESTNET_CONFIG TESTNET_NETWORK_HASH
               (Sample.terminal Scenario.answers_with_memo)
             = Return Scenario.created_with_memo w')
    by (eexists; lazy -[next_sequence formatAmount]; reflexivity).
  destruct E as [w' E].
  exact (returned_memo_is_validated Sample.library Sample.healthy
           TESTNET_CONFIG TESTNET_NETWORK_HASH
           (Sample.terminal Scenario.answers_with_memo) w'
           Scenario.created_with_memo E).
Defined.

(** X8.  When the first request, the check of the source account, fails,
    the switching variant stops before it asks anything: it throws
    ["Failed to build transaction: Source account ... not found on network.
    Fund it first!"] on a 404 and ["Failed to build transaction: Failed to
    check account: "] followed by the message of the error otherwise, having
    sent that one request and written nothing. *)
Theorem failed_source_check_aborts (sdk : Library) (server : Horizon)
    (config : NetworkConfig) (networkHash : list Z) (w : World) (e : JsError) :
  horizon_response server (requests w) SOURCE_PUBLIC_KEY = Throw e ->
  Switching.buildStellarTransaction sdk server config networkHash w
  = Raise
      (Error
         (lit "Failed to build transaction: "
          ++ (if status_is_404 e
              then lit "Source account GDBKSMQZAJ3DBIM55BAWY7I4QSRUHZ3IOJV2YJAVQHWUXMGIDVS5MGNM not found on network. Fund it first!"
              else lit "Failed to check account: " ++ message e)))
      {| stdin := stdin w; stdout := stdout w; requests := S (requests w) |}.
Proof.
  intros H.
  unfold Switching.buildStellarTransaction, Switching.checkAccountActivation,
    catch, bind, loadAccount, throw.
  rewrite H. destruct (status_is_404 e); reflexivity.
Qed.

Lemma failed_source_check_aborts_witness :
  Switching.buildStellarTransaction Sample.library Scenario.unfunded
    TESTNET_CONFIG TESTNET_NETWORK_HASH (Sample.terminal Sample.answers)
  = Raise
      (Error
         (lit "Failed to build transaction: "
          ++ (if status_is_404 not_found
              then lit "Source account GDBKSMQZAJ3DBIM55BAWY7I4QSRUHZ3IOJV2YJAVQHWUXMGIDVS5MGNM not found on network. Fund it first!"
              else lit "Failed to check account: " ++ message not_found)))
      {| stdin := Sample.answers; stdout := []; requests := 1 |}.
Proof.
  apply (failed_source_check_aborts Sample.library Scenario.unfunded
           TESTNET_CONFIG TESTNET_NETWORK_HASH (Sample.terminal Sample.answers)
           not_found).
  reflexivity.
Defined.



Lemma amount_loop_reads (operationType : Switching.OperationType)
    (answer : jsstring) (rest out : list jsstring) (n : nat) :
  Switching.amount_body operationType (trim answer)
  = Normal ([], Some (trim answer)) ->
  ask_until (lit "Amount (XLM): ") (Switching.amount_body operationType)
    {| stdin := answer :: rest; stdout := out; requests := n |}
  = Return (trim answer)
      {| stdin := rest; stdout := out ++ [lit "Amount (XLM): "]; requests := n |}.
Proof.
  intros H. unfold ask_until. cbn [stdin stdout requests prompt_loop].
  rewrite H. reflexivity.
Qed.

Lemma destination_loop_reads (sdk : Library) (answer : jsstring)
    (rest out : list jsstring) (n : nat) :
  isValidStellarAddress sdk (trim answer) = Normal true ->
  ask_until (lit "Destination address: ") (destination_body sdk)
    {| stdin := answer :: rest; stdout := out; requests := n |}
  = Return (trim answer)
      {| stdin := rest; stdout := out ++ [lit "Destination address: "];
         requests := n |}.
Proof.
  intros H. unfold ask_until. cbn [stdin stdout requests prompt_loop].
  unfold destination_body. rewrite H. reflexivity.
Qed.

(** X10.  An invalid memo value is not asked again: when the source account
    loads, the first answers are a valid destination and a valid amount,
    and the value given for the chosen memo type is refused, the builder
    throws ["Failed to build transaction: "] followed by the message of the
    refusal, after it has read the four answers and sent its three
    requests. *)
Theorem refused_memo_aborts_the_build (sdk : Library) (server : Horizon)
    (config : NetworkConfig) (networkHash : list Z)
    (dest amount memoType line : jsstring) (rest out : list jsstring) (n : nat)
    (checked loaded : Account) (e : JsError) :
  horizon_response server n SOURCE_PUBLIC_KEY = Normal checked ->
  horizon_response server (S n) SOURCE_PUBLIC_KEY = Normal loaded ->
  isValidStellarAddress sdk (trim dest) = Normal true ->
  Switching.amount_body
    (operation_type_for
       (destination_exists (horizon_response server (S (S n)) (trim dest))))
    (trim amount)
  = Normal ([], Some (trim amount)) ->
  In memoType [lit "1"; lit "2"; lit "3"; lit "4"] ->
  Switching.memo_of_choice memoType (trim line) = Throw e ->
  exists w',
    Switching.buildStellarTransaction sdk server config networkHash
      {| stdin := dest :: amount :: memoType :: line :: rest;
         stdout := out; requests := n |}
    = Raise (Error (lit "Failed to build transaction: " ++ message e)) w'
    /\ stdin w' = rest
    /\ requests w' = S (S (S n)).
Proof.
  intros Hcheck Hload Hdest Hamount Htype Hmemo.
  assert (Hstep : forall out',
             Switching.getMemoInput
               {| stdin := memoType :: line :: rest; stdout := out';
                  requests := S (S (S n)) |}
             = Raise e (after_memo rest out' (S (S (S n))))).
  { intros out'.
    rewrite getMemoInput_step.
    - rewrite Hmemo. reflexivity.
    - destruct Htype as [<- | [<- | [<- | [<- | []]]]]; reflexivity.
    - destruct Htype as [<- | [<- | [<- | [<- | []]]]]; reflexivity.
    - destruct Htype as [<- | [<- | [<- | [<- | []]]]]; reflexivity. }
  unfold Switching.buildStellarTransaction, Switching.checkAccountActivation.
  unfold catch at 1. unfold bind at 1. unfold catch, bind at 1.
  unfold loadAccount at 1. cbn [stdin stdout requests]. rewrite Hcheck.
  unfold ret at 1. unfold bind at 1.
  unfold loadAccount at 1. cbn [stdin stdout requests]. rewrite Hload.
  unfold bind at 1.
  rewrite (destination_loop_reads sdk dest _ _ _ Hdest).
  unfold bind at 1. rewrite checkDestinationAccountExists_run.
  cbn [stdin stdout requests].
  set (exists_ := destination_exists
                    (horizon_response server (S (S n)) (trim dest))) in *.
  unfold bind at 1.
  destruct exists_; cbn [negb operation_type_for] in *.
  - unfold ret at 1. unfold bind at 1.
    rewrite (amount_loop_reads _ _ _ _ _ Hamount).
    unfold bind at 1. rewrite Hstep. unfold throw.
    eexists. split; [reflexivity |]. split; reflexivity.
  - unfold bind at 1. unfold console_log, print, ret at 1.
    cbn [stdin stdout requests].
    unfold bind at 1.
    rewrite (amount_loop_reads _ _ _ _ _ Hamount).
    unfold bind at 1. rewrite Hstep. unfold throw.
    eexists. split; [reflexivity |]. split; reflexivity.
Qed.

Lemma refused_memo_aborts_the_build_witness :
  exists w',
    Switching.buildStellarTransaction Sample.library Sample.healthy
      TESTNET_CONFIG TESTNET_NETWORK_HASH
      {| stdin := [Sample.DESTINATION; lit "10"; lit "3"; lit "abc"] ++ [];
         stdout := []; requests := 0 |}
    = Raise (Error (lit "Failed to build transaction: "
                    ++ message (Error (lit "HASH memo must be 64 hex characters (32 bytes)"))))
        w'
    /\ stdin w' = []
    /\ requests w' = 3%nat.
Proof.
  apply (refused_memo_aborts_the_build Sample.library Sample.healthy
           TESTNET_CONFIG TESTNET_NETWORK_HASH Sample.DESTINATION (lit "10")
           (lit "3") (lit "abc") [] [] 0 Sample.source_account
           Sample.source_account
           (Error (lit "HASH memo must be 64 hex characters (32 bytes)"))).
  - reflexivity.
  - reflexivity.
  - reflexivity.
  - vm_compute. reflexivity.
  - right; right; left; reflexivity.
  - reflexivity.
Defined.

(** * The payment-only variants *)

Lemma trim_digits (s : jsstring) :
  Forall (fun c => is_digit c = true) s -> trim s = s.
Proof.
  intros H. destruct s as [| c r]; [reflexivity |].
  unfold trim. cbn [trimStart].
  rewrite (digit_not_whitespace c) by (inversion H; assumption).
  unfold trimEnd.
  assert (Hrev : Forall (fun c => is_digit c = true) (rev (c :: r)))
    by (apply Forall_rev; exact H).
  destruct (rev (c :: r)) as [| x l] eqn:E.
  - apply (f_equal (@List.length _)) in E. rewrite length_rev in E. discriminate.
  - cbn [trimStart].
    rewrite (digit_not_whitespace x) by (inversion Hrev; assumption).
    rewrite <- E. apply rev_involutive.
Qed.

Lemma starts_with_letter (p c : code_unit) (s : jsstring) :
  Forall (fun c => is_digit c = true) s -> is_digit c = false ->
  starts_with [p; c] s = false.
Proof.
  intros H Hc. destruct s as [| a [| b r]]; cbn [starts_with].
  - reflexivity.
  - apply andb_false_r.
  - inversion H as [| ? ? _ H']. inversion H' as [| ? ? Hb _]. subst.
    destruct (N.eqb_spec c b) as [-> | _].
    + congruence.
    + cbn [andb]. apply andb_false_r.
Qed.

Lemma StringToBigInt_digits (s : jsstring) :
  Forall (fun c => is_digit c = true) s -> s <> [] ->
  StringToBigInt s = Some (decimal_value s).
Proof.
  intros H Hne. unfold StringToBigInt. rewrite (trim_digits s H). cbv zeta.
  destruct s as [| c r] eqn:Es; [congruence |]. rewrite <- Es in *.
  change (lit "0x") with [48%N; 120%N]. change (lit "0X") with [48%N; 88%N].
  change (lit "0o") with [48%N; 111%N]. change (lit "0O") with [48%N; 79%N].
  change (lit "0b") with [48%N; 98%N]. change (lit "0B") with [48%N; 66%N].
  rewrite !(starts_with_letter 48%N _ s H) by reflexivity.
  cbn [orb].
  assert (Hc : is_digit c = true) by (subst s; inversion H; assumption).
  assert (Esign : strip_sign s = (false, s)).
  { subst s. unfold strip_sign.
    apply is_digit_spec in Hc.
    destruct (N.eqb_spec c 45); [lia |].
    destruct (N.eqb_spec c 43); [lia |]. reflexivity. }
  rewrite Esign.
  assert (Hall : all_digits is_digit s = true).
  { apply (all_digits_spec is_digit decimal_char s is_digit_spec).
    split; [subst s; discriminate |].
    eapply Forall_impl; [| exact H]. intros x Hx. apply is_digit_spec. exact Hx. }
  rewrite Hall. reflexivity.
Qed.

(** X11.  Every memo that the shape-inference variant attaches as an ID
    memo is made of decimal digits that denote an integer from 0 to
    [2^64 - 1]: it passes the validation that the switching variant applies
    to an ID memo. *)
Theorem shape_id_memo_is_in_range (memo : option jsstring) (value : jsstring) :
  ShapeInference.memo_for memo = Some (Memo_id value) ->
  0 <= decimal_value value <= Switching.UINT64_MAX
  /\ StringToBigInt value = Some (decimal_value value)
  /\ Switching.memo_of_choice (lit "2") value = Normal (Some (Memo_id value)).
Proof.
  unfold ShapeInference.memo_for.
  destruct memo as [s |]; [| discriminate].
  destruct (matches_digits s && (Z.of_nat (List.length s) <=? 19)) eqn:E;
    [| discriminate].
  intros K. injection K as ->.
  apply andb_true_iff in E as [Hd Hl].
  apply matches_digits_spec in Hd as [Hne Hd]. apply Z.leb_le in Hl.
  assert (Hd' : Forall (fun c => is_digit c = true) value).
  { eapply Forall_impl; [| exact Hd]. intros x Hx. apply is_digit_spec. exact Hx. }
  pose proof (decimal_value_nonneg value Hd') as H0.
  pose proof (decimal_value_bound value Hd') as H1.
  assert (Hpow : 10 ^ Z.of_nat (List.length value) <= 10 ^ 19)
    by (apply Z.pow_le_mono_r; lia).
  assert (Hmax : 10 ^ 19 <= Switching.UINT64_MAX) by (vm_compute; discriminate).
  assert (Hbig : StringToBigInt value = Some (decimal_value value))
    by (apply StringToBigInt_digits; assumption).
  repeat split; try lia; try exact Hbig.
  rewrite memo_of_choice_id, Hbig.
  destruct (Z.ltb_spec (decimal_value value) 0); [lia |].
  destruct (Z.ltb_spec Switching.UINT64_MAX (decimal_value value)); [lia |].
  reflexivity.
Qed.

Lemma shape_id_memo_is_in_range_witness :
  0 <= decimal_value (lit "9999999999999999999") <= Switching.UINT64_MAX
  /\ StringToBigInt (lit "9999999999999999999")
     = Some (decimal_value (lit "9999999999999999999"))
  /\ Switching.memo_of_choice (lit "2") (lit "9999999999999999999")
     = Normal (Some (Memo_id (lit "9999999999999999999"))).
Proof.
  apply (shape_id_memo_is_in_range (Some (lit "9999999999999999999"))).
  reflexivity.
Defined.

Lemma shape_amount_body_some (answer amount : jsstring) (logs : list jsstring) :
  ShapeInference.amount_body answer = Normal (logs, Some amount) ->
  Switching.amount_body Switching.op_payment amount = Normal ([], Some amount).
Proof.
  unfold ShapeInference.amount_body, Switching.amount_body. cbv zeta.
  destruct (isNaN (parseFloat answer) || num_le (parseFloat answer) num_zero) eqn:E;
    [discriminate |].
  intros K. injection K as _ <-. rewrite E. reflexivity.
Qed.

(** What a run of the shape-inference variant that returns has done. *)
Lemma shape_build_inversion (sdk : Library) (server : Horizon) (w w' : World)
    (td : TransactionData) :
  ShapeInference.buildStellarTransaction sdk server w = Return td w' ->
  exists sourceAccount destination amount line,
    let memo := ShapeInference.memo_or_null (trim line) in
    horizon_response server (requests w) SOURCE_PUBLIC_KEY = Normal sourceAccount
    /\ isValidStellarAddress sdk destination = Normal true
    /\ Switching.amount_body Switching.op_payment amount
       = Normal ([], Some amount)
    /\ requests w' = S (requests w)
    /\ td = payment_record sdk sourceAccount destination amount
              (ShapeInference.memo_for memo) (option_map StringValue memo).
Proof.
  intros H. unfold ShapeInference.buildStellarTransaction in H.
  apply catch_return in H.
  2:{ intros e w1. destruct (status_is_404 e); unfold throw; eauto. }
  apply bind_return in H as (u & w1 & H1 & H).
  apply console_log_return in H1.
  apply bind_return in H as (sourceAccount & w2 & H2 & H).
  apply loadAccount_return in H2 as [Hsrc H2]. rewrite H1 in Hsrc, H2.
  apply bind_return in H as (destination & w3 & H3 & H).
  apply ask_until_return in H3 as [H3 (answer & logs & Hd)].
  apply destination_body_some in Hd as [_ Hvalid].
  apply bind_return in H as (amount & w4 & H4 & H).
  apply ask_until_return in H4 as [H4 (answer' & logs' & Ha)].
  apply shape_amount_body_some in Ha.
  apply bind_return in H as (memoInput & w5 & Hq & H).
  pose proof (askQuestion_requests _ _ _ _ Hq) as H5.
  apply askQuestion_return in Hq as [line ->].
  unfold ret in H. injection H as <- <-.
  exists sourceAccount, destination, amount, line. cbv zeta.
  repeat split; try assumption; congruence.
Qed.

(** X12.  A run of the shape-inference variant that returns has sent one
    request to Horizon, for the source account: the destination is never
    looked up, and the single operation is a payment to a destination that
    the address validation accepts, with a time bound of 30 seconds, on the
    test network. *)
Theorem shape_variant_builds_a_payment (sdk : Library) (server : Horizon)
    (w w' : World) (td : TransactionData) :
  ShapeInference.buildStellarTransaction sdk server w = Return td w' ->
  let tx := transaction td in
  let dest := destination (details td) in
  requests w' = S (requests w)
  /\ horizon_response server (requests w) SOURCE_PUBLIC_KEY
     = Normal (tx_source tx)
  /\ tx_operations tx = [payment dest native (amount (details td))]
  /\ isValidStellarAddress sdk dest = Normal true
  /\ tx_timeout tx = Some 30
  /\ tx_fee tx = lit "100"
  /\ tx_networkPassphrase tx = passphrase TESTNET_CONFIG
  /\ networkHash td = TESTNET_NETWORK_HASH.
Proof.
  intros H.
  apply shape_build_inversion in H
    as (sourceAccount & dest & amt & line & Hsrc & Hvalid & _ & Hreq & ->).
  cbv zeta.
  destruct (ShapeInference.memo_for (ShapeInference.memo_or_null (trim line)));
    repeat split; assumption.
Qed.

Lemma shape_variant_builds_a_payment_witness :
  ledger Sample.healthy Sample.DESTINATION = None
  /\ exists w',
       requests w' = 1%nat
       /\ tx_operations (transaction Scenario.shape_paid)
          = [payment Sample.DESTINATION native (formatAmount (lit "10"))]
       /\ tx_timeout (transaction Scenario.shape_paid) = Some 30.
Proof.
  split; [reflexivity |].
  assert (E : exists w',
             ShapeInference.buildStellarTransaction Sample.library Sample.healthy
               (Sample.terminal [Sample.DESTINATION; lit "10"; lit "12345"])
             = Return Scenario.shape_paid w')
    by (eexists; lazy -[next_sequence formatAmount]; reflexivity).
  destruct E as [w' E]. exists w'.
  pose proof (shape_variant_builds_a_payment Sample.library Sample.healthy
                (Sample.terminal [Sample.DESTINATION; lit "10"; lit "12345"])
                w' Scenario.shape_paid E) as H.
  cbv zeta in H.
  destruct H as (H1 & _ & H3 & _ & H5 & _).
  repeat split; assumption.
Defined.

Lemma testnet_checkAccountActivation_return (server : Horizon) (w w' : World)
    (u : unit) :
  TestnetMenu.checkAccountActivation server w = Return u w' ->
  requests w' = S (requests w).
Proof.
  unfold TestnetMenu.checkAccountActivation, catch, bind, loadAccount, ret, throw.
  destruct (horizon_response server (requests w) SOURCE_PUBLIC_KEY) as [a | e].
  - intros E. injection E as _ <-. reflexivity.
  - destruct (status_is_404 e); discriminate.
Qed.

(** What a run of the testnet-only variant that returns has done. *)
Lemma testnet_build_inversion (sdk : Library) (server : Horizon) (w w' : World)
    (td : TransactionData) :
  TestnetMenu.buildStellarTransaction sdk server w = Return td w' ->
  exists sourceAccount destination amount memo,
    horizon_response server (S (requests w)) SOURCE_PUBLIC_KEY
    = Normal sourceAccount
    /\ isValidStellarAddress sdk destination = Normal true
    /\ Switching.amount_body Switching.op_payment amount
       = Normal ([], Some amount)
    /\ valid_memo memo
    /\ requests w' = S (S (requests w))
    /\ td = payment_record sdk sourceAccount destination amount memo
              (option_map memo_value memo).
Proof.
  intros H. unfold TestnetMenu.buildStellarTransaction in H.
  apply catch_return in H; [| intros e w1; unfold throw; eauto].
  apply bind_return in H as (u & w1 & H1 & H).
  apply testnet_checkAccountActivation_return in H1.
  apply bind_return in H as (sourceAccount & w2 & H2 & H).
  apply loadAccount_return in H2 as [Hsrc H2]. rewrite H1 in Hsrc, H2.
  apply bind_return in H as (destination & w3 & H3 & H).
  apply ask_until_return in H3 as [H3 (answer & logs & Hd)].
  apply destination_body_some in Hd as [_ Hvalid].
  apply bind_return in H as (amount & w4 & H4 & H).
  apply ask_until_return in H4 as [H4 (answer' & logs' & Ha)].
  apply shape_amount_body_some in Ha.
  apply bind_return in H as (memo & w5 & H5 & H).
  apply getMemoInput_return in H5 as [H5 Hmemo].
  unfold ret in H. injection H as <- <-.
  exists sourceAccount, destination, amount, memo.
  repeat split; try assumption; congruence.
Qed.

(** X13.  A run of the testnet-only variant with the memo menu that returns
    has sent two requests to Horizon, both for the source account: the
    destination is never looked up, and the single operation is a payment
    to a destination that the address validation accepts, with a time bound
    of 30 seconds and a memo that passed the validation of its type. *)
Theorem testnet_variant_builds_a_payment (sdk : Library) (server : Horizon)
    (w w' : World) (td : TransactionData) :
  TestnetMenu.buildStellarTransaction sdk server w = Return td w' ->
  let tx := transaction td in
  let dest := destination (details td) in
  requests w' = S (S (requests w))
  /\ horizon_response server (S (requests w)) SOURCE_PUBLIC_KEY
     = Normal (tx_source tx)
  /\ tx_operations tx = [payment dest native (amount (details td))]
  /\ isValidStellarAddress sdk dest = Normal true
  /\ tx_timeout tx = Some 30
  /\ valid_memo (tx_memo tx)
  /\ memo (details td) = option_map memo_value (tx_memo tx)
  /\ tx_networkPassphrase tx = passphrase TESTNET_CONFIG
  /\ networkHash td = TESTNET_NETWORK_HASH.
Proof.
  intros H.
  apply testnet_build_inversion in H
    as (sourceAccount & dest & amt & m & Hsrc & Hvalid & _ & Hm & Hreq & ->).
  cbv zeta. destruct m; repeat split; assumption.
Qed.

Lemma testnet_variant_builds_a_payment_witness :
  ledger Sample.healthy Sample.DESTINATION = None
  /\ exists w',
       requests w' = 2%nat
       /\ tx_operations (transaction Scenario.testnet_paid)
          = [payment Sample.DESTINATION native (formatAmount (lit "10"))]
       /\ valid_memo (tx_memo (transaction Scenario.testnet_paid)).
Proof.
  split; [reflexivity |].
  assert (E : exists w',
             TestnetMenu.buildStellarTransaction Sample.library Sample.healthy
               (Sample.terminal Scenario.answers_with_memo)
             = Return Scenario.testnet_paid w')
    by (eexists; lazy -[next_sequence formatAmount]; reflexivity).
  destruct E as [w' E]. exists w'.
  pose proof (testnet_variant_builds_a_payment Sample.library Sample.healthy
                (Sample.terminal Scenario.answers_with_memo)
                w' Scenario.testnet_paid E) as H.
  cbv zeta in H.
  destruct H as (H1 & _ & H3 & _ & _ & H6 & _).
  repeat split; assumption.
Defined.

(** * The entry points *)

Lemma quiet_run {A} (c : M A) : quiet (run c).
Proof.
  intros p a p'. unfold run.
  destruct (c (world p)); try discriminate.
  intros E. injection E as _ <-. reflexivity.
Qed.

Lemma quiet_done {A} (a : A) : quiet (done a).
Proof. intros p b p' E. injection E as _ <-. reflexivity. Qed.

Lemma quiet_and_then {A B} (c : P A) (k : A -> P B) :
  quiet c -> (forall a, quiet (k a)) -> quiet (and_then c k).
Proof.
  intros Hc Hk p b p'. unfold and_then.
  destruct (c p) as [a p1 | e p1 | p1] eqn:E; try discriminate.
  intros K. rewrite (Hk a _ _ _ K). exact (Hc _ _ _ E).
Qed.

Lemma throws_only_run {A} (Q : JsError -> Prop) (c : M A) :
  (forall w e w', c w = Raise e w' -> Q e) -> throws_only Q (run c).
Proof.
  intros H p e p'. unfold run.
  destruct (c (world p)) as [a w1 | e1 w1 | w1] eqn:E; try discriminate.
  intros K. injection K as <- <-. split; [exact (H _ _ _ E) | reflexivity].
Qed.

Lemma throws_only_done {A} (Q : JsError -> Prop) (a : A) : throws_only Q (done a).
Proof. intros p e p'. discriminate. Qed.

Lemma throws_only_and_then {A B} (Q : JsError -> Prop) (c : P A) (k : A -> P B) :
  throws_only Q c -> quiet c -> (forall a, throws_only Q (k a)) ->
  throws_only Q (and_then c k).
Proof.
  intros Hc Hq Hk p e p'. unfold and_then.
  destruct (c p) as [a p1 | e1 p1 | p1] eqn:E; try discriminate.
  - intros K. destruct (Hk a _ _ _ K) as [HQ Hs].
    split; [exact HQ |]. rewrite Hs. exact (Hq _ _ _ E).
  - intros K. injection K as <- <-. exact (Hc _ _ _ E).
Qed.

Lemma console_log_never_raises (line : jsstring) (w : World) (e : JsError)
    (w' : World) :
  console_log line w = Raise e w' -> False.
Proof. discriminate. Qed.

Lemma askQuestion_never_raises (question : jsstring) (w : World) (e : JsError)
    (w' : World) :
  askQuestion question w = Raise e w' -> False.
Proof. unfold askQuestion. destruct (stdin w); discriminate. Qed.

Lemma choice_loop_never_raises (question : jsstring) (w : World) (e : JsError)
    (w' : World) :
  ask_until question choice_body w = Raise e w' -> False.
Proof.
  unfold ask_until. apply prompt_loop_never_raises.
  intros a e'. unfold choice_body. discriminate.
Qed.

(** Whatever was thrown in [buildStellarTransaction] leaves it as a new
    error whose message starts with ["Failed to build transaction: "]. *)
Lemma buildStellarTransaction_raises (sdk : Library) (server : Horizon)
    (config : NetworkConfig) (networkHash : list Z) (w w' : World) (e : JsError) :
  Switching.buildStellarTransaction sdk server config networkHash w = Raise e w' ->
  build_failure e.
Proof.
  unfold Switching.buildStellarTransaction, catch.
  match goal with |- match ?b with _ => _ end = _ -> _ => destruct b as [a w1 | e1 w1 | w1] end;
    try discriminate.
  unfold throw. intros K. injection K as <- _. exists (message e1). reflexivity.
Qed.

(** [broadcastTransaction] never throws. *)
Lemma broadcastTransaction_never_fails (env : Environment)
    (config : NetworkConfig) (Q : JsError -> Prop) :
  throws_only Q (broadcastTransaction env config).
Proof.
  intros p e p'. unfold broadcastTransaction, and_then, run, askQuestion.
  destruct (stdin (world p)) as [| line rest]; [discriminate |].
  cbn [world stderr].
  destruct (fromXDR env (trim line) (passphrase config)) as [t | e1];
    [| discriminate].
  match goal with
  | |- match ?r with _ => _ end = _ -> _ => destruct r as [res | e1 [codes |]]
  end; discriminate.
Qed.

(** X14.  The entry point of the switching variant ends the process with
    an exit code only for an error thrown by [buildStellarTransaction]: the
    code is 1, and the one line added to standard error is ["Error: Failed
    to build transaction: "] followed by the cause.  No answer to a menu and
    no failure of a broadcast ends the process that way. *)
Theorem exit_code_comes_from_the_builder (env : Environment) (p p' : Process)
    (code : Z) :
  SwitchingEntry.main env p = Exited code p' ->
  code = 1
  /\ exists cause,
       stderr p'
       = stderr p ++ [lit "Error: Failed to build transaction: " ++ cause].
Proof.
  unfold SwitchingEntry.main, guarded.
  match goal with
  | |- match ?b p with _ => _ end = _ -> _ =>
      assert (Hbody : throws_only build_failure b)
  end.
  { cbv zeta. repeat first
      [ apply broadcastTransaction_never_fails
      | apply throws_only_and_then
      | apply quiet_and_then
      | apply quiet_run
      | apply quiet_done
      | apply throws_only_done
      | apply throws_only_run; intros ? ? ? K; exfalso;
        first [ exact (console_log_never_raises _ _ _ _ K)
              | exact (askQuestion_never_raises _ _ _ _ K)
              | exact (choice_loop_never_raises _ _ _ _ K) ]
      | match goal with
        | |- forall _, throws_only _ _ => intros ?
        | |- forall _, quiet _ => intros ?
        | |- throws_only _ (if ?b then _ else _) => destruct b
        | |- quiet (if ?b then _ else _) => destruct b
        end ].
    apply throws_only_run. intros w e w' K.
    eapply buildStellarTransaction_raises. exact K. }
  match goal with
  | |- match ?b p with _ => _ end = _ -> _ =>
      destruct (b p) as [u p1 | e p1 | p1] eqn:E
  end; try discriminate.
  intros K. injection K as <- <-.
  destruct (Hbody _ _ _ E) as [[cause Hc] Hs].
  split; [reflexivity |]. exists cause.
  cbn [stderr]. rewrite Hs, Hc. reflexivity.
Qed.

Lemma exit_code_comes_from_the_builder_witness :
  exists code p',
    SwitchingEntry.main (Scenario.environment Scenario.unfunded)
      (process [lit "1"; lit "1"] [] 0 [])
    = Exited code p'
    /\ code = 1
    /\ exists cause,
         stderr p'
         = [] ++ [lit "Error: Failed to build transaction: " ++ cause].
Proof.
  assert (E : exists code p',
             SwitchingEntry.main (Scenario.environment Scenario.unfunded)
               (process [lit "1"; lit "1"] [] 0 [])
             = Exited code p')
    by (do 2 eexists; vm_compute; reflexivity).
  destruct E as (code & p' & E). exists code, p'.
  split; [exact E |].
  exact (exit_code_comes_from_the_builder (Scenario.environment Scenario.unfunded)
           (process [lit "1"; lit "1"] [] 0 []) p' code E).
Defined.

(** The menu loops ask again, without a message, after every answer that
    is neither ["1"] nor ["2"]. *)
Lemma choice_loop_skips (question choice : jsstring)
    (bad rest out : list jsstring) (n : nat) :
  Forall (fun a => Switching.includes menu_choices (trim a) = false) bad ->
  In choice menu_choices ->
  ask_until question choice_body
    {| stdin := bad ++ choice :: rest; stdout := out; requests := n |}
  = Return choice
      {| stdin := rest;
         stdout := out ++ asked_again question (fun _ => []) bad ++ [question];
         requests := n |}.
Proof.
  intros Hbad Hin. unfold ask_until. cbn [stdin stdout requests].
  rewrite (prompt_loop_skip _ _ (fun _ => [])).
  - cbn [prompt_loop].
    assert (E : choice_body (trim choice) = Normal ([], Some choice)).
    { destruct Hin as [<- | [<- | []]]; reflexivity. }
    rewrite E, <- app_assoc. reflexivity.
  - eapply Forall_impl; [| exact Hbad]. intros a Ha. cbn beta in *.
    unfold choice_body. rewrite Ha. reflexivity.
Qed.

Lemma choice_loop_reads (question choice : jsstring)
    (rest out : list jsstring) (n : nat) :
  In choice menu_choices ->
  ask_until question choice_body
    {| stdin := choice :: rest; stdout := out; requests := n |}
  = Return choice
      {| stdin := rest; stdout := out ++ [question]; requests := n |}.
Proof.
  intros Hin.
  exact (choice_loop_skips question choice [] rest out n (Forall_nil _) Hin).
Qed.

(** X15.  On the main network nothing is built or sent without the
    confirmation: when the answer to ["Continue? (yes/no): "] is not
    [yes] in some letter case, the entry point writes ["Operation
    cancelled."] and returns, with no request sent, nothing on standard
    error and [rl.close()] run.  Answers to the network menu other than
    ["1"] and ["2"] are asked again before that. *)
Theorem mainnet_needs_confirmation (env : Environment)
    (bad : list jsstring) (confirm : jsstring) (rest out : list jsstring)
    (n : nat) (err : list jsstring) :
  Forall (fun a => Switching.includes menu_choices (trim a) = false) bad ->
  toLowerCase (trim confirm) <> lit "yes" ->
  SwitchingEntry.main env (process (bad ++ lit "2" :: confirm :: rest) out n err)
  = Closed
      (process rest
         (out
          ++ [lit "Select network:"; lit "1. Testnet"; lit "2. Mainnet"]
          ++ asked_again (lit "Choose network (1-2): ") (fun _ => []) bad
          ++ [lit "Choose network (1-2): ";
              lit "WARNING: You are using MAINNET - real XLM will be transferred!";
              lit "Continue? (yes/no): ";
              lit "Operation cancelled."])
         n err).
Proof.
  intros Hbad Hno.
  assert (Hneq : jsstring_eqb (toLowerCase (trim confirm)) (lit "yes") = false).
  { apply not_true_is_false. intros K. apply Hno, jsstring_eqb_eq. exact K. }
  unfold SwitchingEntry.main. (unfold guarded, and_then, run, console_log, print, done, process;
     cbn [world stderr stdin stdout requests]).
  rewrite (choice_loop_skips _ (lit "2")) by (assumption || (right; left; reflexivity)).
  change (jsstring_eqb (lit "2") (lit "2")) with true. cbv iota.
  (unfold guarded, and_then, run, console_log, print, done, process;
     cbn [world stderr stdin stdout requests]). unfold askQuestion. cbn [stdin stdout requests].
  rewrite Hneq. cbn [negb]. (unfold guarded, and_then, run, console_log, print, done, process;
     cbn [world stderr stdin stdout requests]).
  repeat rewrite <- app_assoc. reflexivity.
Qed.

Lemma mainnet_needs_confirmation_witness :
  SwitchingEntry.main (Scenario.environment Sample.healthy)
    (process ([lit "3"; lit "mainnet"] ++ lit "2" :: lit "y" :: [lit "1"])
       [] 0 [])
  = Closed
      (process [lit "1"]
         ([]
          ++ [lit "Select network:"; lit "1. Testnet"; lit "2. Mainnet"]
          ++ asked_again (lit "Choose network (1-2): ") (fun _ => [])
               [lit "3"; lit "mainnet"]
          ++ [lit "Choose network (1-2): ";
              lit "WARNING: You are using MAINNET - real XLM will be transferred!";
              lit "Continue? (yes/no): ";
              lit "Operation cancelled."])
         0 []).
Proof.
  apply (mainnet_needs_confirmation (Scenario.environment Sample.healthy)
           [lit "3"; lit "mainnet"] (lit "y") [lit "1"] [] 0 []).
  - repeat constructor.
  - vm_compute. discriminate.
Defined.

(** X16.  Once the menus are answered, the entry point runs the chosen
    operation on the chosen network: the builder with the Horizon server,
    the passphrase and the network hash of that one network, followed by
    the display of the envelope, or the broadcast with the configuration
    of that network.  The main network is entered on the answer [yes], in
    any letter case. *)
Theorem main_runs_on_the_chosen_network (env : Environment)
    (mainnet build : bool) (confirm : jsstring) (rest out : list jsstring)
    (n : nat) (err : list jsstring) :
  (mainnet = true -> toLowerCase (trim confirm) = lit "yes") ->
  SwitchingEntry.main env
    (process (network_answers mainnet confirm
              ++ (if build then lit "1" else lit "2") :: rest) out n err)
  = guarded (chosen_operation env mainnet build)
      (process rest (out ++ network_dialogue mainnet ++ operation_dialogue)
         n err).
Proof.
  intros Hyes.
  assert (Hop : In (if build then lit "1" else lit "2") menu_choices)
    by (destruct build; [left | right; left]; reflexivity).
  unfold SwitchingEntry.main, guarded at 1.
  unfold guarded.
  match goal with
  | |- match ?a with _ => _ end = match ?b with _ => _ end =>
      replace a with b; [reflexivity |]
  end.
  destruct mainnet; cbn [network_answers network_dialogue app].
  - specialize (Hyes eq_refl).
    (unfold guarded, and_then, run, console_log, print, done, process;
     cbn [world stderr stdin stdout requests]).
    rewrite (choice_loop_reads _ (lit "2")) by (right; left; reflexivity).
    change (jsstring_eqb (lit "2") (lit "2")) with true. cbv iota.
    (unfold guarded, and_then, run, console_log, print, done, process;
     cbn [world stderr stdin stdout requests]). unfold askQuestion. cbn [stdin stdout requests].
    rewrite Hyes. change (jsstring_eqb (lit "yes") (lit "yes")) with true.
    cbn [negb]. (unfold guarded, and_then, run, console_log, print, done, process;
     cbn [world stderr stdin stdout requests]).
    rewrite (choice_loop_reads _ _ _ _ _ Hop).
    repeat rewrite <- app_assoc. cbn [app].
    destruct build; reflexivity.
  - (unfold guarded, and_then, run, console_log, print, done, process;
     cbn [world stderr stdin stdout requests]).
    rewrite (choice_loop_reads _ (lit "1")) by (left; reflexivity).
    change (jsstring_eqb (lit "1") (lit "2")) with false. cbv iota.
    (unfold guarded, and_then, run, console_log, print, done, process;
     cbn [world stderr stdin stdout requests]).
    rewrite (choice_loop_reads _ _ _ _ _ Hop).
    repeat rewrite <- app_assoc. cbn [app].
    destruct build; reflexivity.
Qed.

Lemma main_runs_on_the_chosen_network_witness :
  SwitchingEntry.main (Scenario.environment Sample.healthy)
    (process (network_answers true (lit " YES ")
              ++ (if true then lit "1" else lit "2") :: Sample.answers)
       [] 0 [])
  = guarded (chosen_operation (Scenario.environment Sample.healthy) true true)
      (process Sample.answers
         ([] ++ network_dialogue true ++ operation_dialogue) 0 []).
Proof.
  apply (main_runs_on_the_chosen_network (Scenario.environment Sample.healthy)
           true true (lit " YES ") Sample.answers [] 0 []).
  intros _. vm_compute. reflexivity.
Defined.


(** X18.  In the two testnet-only variants, a source account that Horizon
    does not know (status 404 on the first request) ends the process with
    exit code 1 before the builder asks anything.  The variant that infers
    the memo type writes ["Error: Source account ... not found on testnet.
    Fund it first!"] to standard error; the variant with the memo menu
    writes the same message after ["Error: Failed to build transaction: "]. *)
Theorem missing_source_account_exits_with_one (env : Environment)
    (lines rest out : list jsstring) (n : nat) (err : list jsstring)
    (e : JsError) :
  horizon_response (server_at env (horizon TESTNET_CONFIG)) n SOURCE_PUBLIC_KEY
  = Throw e ->
  status_is_404 e = true ->
  ShapeEntry.main env (process lines out n err)
  = Exited 1
      (process lines (out ++ [lit "Loading source account..."]) (S n)
         (err ++ [lit "Error: Source account GDBKSMQZAJ3DBIM55BAWY7I4QSRUHZ3IOJV2YJAVQHWUXMGIDVS5MGNM not found on testnet. Fund it first!"]))
  /\ TestnetMenu.main env (process (lit "1" :: rest) out n err)
     = Exited 1
         (process rest (out ++ operation_dialogue) (S n)
            (err ++ [lit "Error: Failed to build transaction: Source account GDBKSMQZAJ3DBIM55BAWY7I4QSRUHZ3IOJV2YJAVQHWUXMGIDVS5MGNM not found on testnet. Fund it first!"])).
Proof.
  intros H H404. split.
  - unfold ShapeEntry.main, guarded, and_then, run, process.
    cbn [world stderr].
    unfold ShapeInference.buildStellarTransaction, catch, bind, console_log,
      print, loadAccount, throw.
    cbn [stdin stdout requests]. rewrite H, H404. reflexivity.
  - unfold TestnetMenu.main. (unfold guarded, and_then, run, console_log, print, done, process;
     cbn [world stderr stdin stdout requests]).
    rewrite (choice_loop_reads _ (lit "1")) by (left; reflexivity).
    change (jsstring_eqb (lit "1") (lit "1")) with true. cbv iota.
    unfold TestnetMenu.buildStellarTransaction,
      TestnetMenu.checkAccountActivation, catch, bind, loadAccount, throw.
    cbn [world stderr stdin stdout requests]. rewrite H, H404.
    cbn [world stderr]. repeat rewrite <- app_assoc. reflexivity.
Qed.

Lemma missing_source_account_exits_with_one_witness :
  ShapeEntry.main (Scenario.environment Scenario.unfunded)
    (process Sample.answers [] 0 [])
  = Exited 1
      (process Sample.answers ([] ++ [lit "Loading source account..."]) 1
         ([] ++ [lit "Error: Source account GDBKSMQZAJ3DBIM55BAWY7I4QSRUHZ3IOJV2YJAVQHWUXMGIDVS5MGNM not found on testnet. Fund it first!"]))
  /\ TestnetMenu.main (Scenario.environment Scenario.unfunded)
       (process (lit "1" :: Sample.answers) [] 0 [])
     = Exited 1
         (process Sample.answers ([] ++ operation_dialogue) 1
            ([] ++ [lit "Error: Failed to build transaction: Source account GDBKSMQZAJ3DBIM55BAWY7I4QSRUHZ3IOJV2YJAVQHWUXMGIDVS5MGNM not found on testnet. Fund it first!"])).
Proof.
  apply (missing_source_account_exits_with_one
           (Scenario.environment Scenario.unfunded) Sample.answers Sample.answers
           [] 0 [] not_found); reflexivity.
Defined.
